(** * Palladium consensus core: difficulty engine, proof of work, AuxPoW

    A shallow embedding of [src/pow.cpp], [src/primitives/block.{h,cpp}],
    [src/consensus/params.h] and the submission gate of [src/rpc/mining.cpp],
    with the properties stated about them.

    Conventions.
    - C++ fixed-width integers are [Z]; unsigned wrap-around is written out
      ([uint32], [uint64], [wrap256]).  Signed [int]/[int64_t] arithmetic is
      plain [Z] arithmetic: signed overflow is undefined in the source, and
      the theorems that depend on it carry the range as a hypothesis.  A
      conversion to a narrower type is written out ([int32]).
    - [uint256] is the 256-bit blob read as a little-endian number, so
      [UintToArith256] is the identity on the representation; its 32 bytes
      are [le_split 32].
    - A function that can hit an [assert], a thrown [uint_error] or undefined
      behaviour (null dereference, division by zero) returns [option]; [None]
      is that abnormal end. *)

From Stdlib Require Import ZArith List Bool Lia String.
From stdpp Require Import gmap.
From coqutil Require Import Word.LittleEndianList Byte.

Local Open Scope Z_scope.
Local Set Warnings "-register-all".

(** ** Fixed-width integers *)

Definition uint32 (x : Z) : Z := x mod 2 ^ 32.
Definition uint64 (x : Z) : Z := x mod 2 ^ 64.

(** Conversion of a wider integer to [int]: the value modulo [2^32], taken
    in [-2^31, 2^31). *)
Definition int32 (x : Z) : Z := (x + 2 ^ 31) mod 2 ^ 32 - 2 ^ 31.

(** C++ [a % b] on signed integers: truncated remainder, undefined for [b = 0]. *)
Definition c_rem (a b : Z) : option Z :=
  if b =? 0 then None else Some (Z.rem a b).

(** C++ [a / b] on signed integers: truncated quotient, undefined for [b = 0]. *)
Definition c_div (a b : Z) : option Z :=
  if b =? 0 then None else Some (Z.quot a b).

(** ** 256-bit blobs and 256-bit arithmetic *)

Definition uint256 := Z.
Definition arith_uint256 := Z.

Module Uint256.

(** [uint256(const std::vector<unsigned char>&)]: the bytes are copied in
    order, byte 0 being the least significant. *)
Definition of_bytes (vch : list byte) : uint256 := le_combine vch.

Definition to_bytes (u : uint256) : list byte := le_split 32 u.

(** [std::reverse(u.begin(), u.end())]. *)
Definition reverse (u : uint256) : uint256 := of_bytes (rev (to_bytes u)).

Definition IsNull (u : uint256) : bool := u =? 0.

Definition in_range (u : uint256) : Prop := 0 <= u < 2 ^ 256.

End Uint256.

Definition UintToArith256 (u : uint256) : arith_uint256 := u.

Module Arith256.

Definition wrap256 (x : Z) : arith_uint256 := x mod 2 ^ 256.

(** Modelled from the spec: [arith_uint256] (arith_uint256.h/.cpp) is not
    among the sources.  Section 4.1 fixes the codec as (exponent, 23-bit
    mantissa, sign flag) with range, negativity and overflow flags, where
    "the high bit of the mantissa selects exponent increment so the sign
    bit is never set"; the definitions follow the upstream routines that
    the callers in pow.cpp link against.  [bits] is the position of the
    highest set bit plus one, 0 for 0. *)
Definition bits (v : arith_uint256) : Z :=
  if v =? 0 then 0 else Z.log2 v + 1.

Definition GetLow64 (v : arith_uint256) : Z := uint64 v.

(** Modelled from the spec: [arith_uint256::SetCompact(nCompact,
    &fNegative, &fOverflow)], the decoder of section 4.1,
    [decode(bits) -> (value, negative, overflow)].  The left shift is taken
    in 256 bits. *)
Definition SetCompact (nCompact : Z) : arith_uint256 * bool * bool :=
  let nSize := Z.shiftr nCompact 24 in
  let nWord := Z.land nCompact 0x007fffff in
  let '(nWord, value) :=
    if nSize <=? 3
    then (let w := Z.shiftr nWord (8 * (3 - nSize)) in (w, w))
    else (nWord, wrap256 (Z.shiftl nWord (8 * (nSize - 3)))) in
  let fNegative :=
    negb (nWord =? 0) && negb (Z.land nCompact 0x00800000 =? 0) in
  let fOverflow :=
    negb (nWord =? 0) &&
    ((nSize >? 34) || ((nWord >? 0xff) && (nSize >? 33))
                   || ((nWord >? 0xffff) && (nSize >? 32))) in
  (value, fNegative, fOverflow).

(** [target.SetCompact(nBits)] with both flag pointers left null. *)
Definition decode (nCompact : Z) : arith_uint256 :=
  fst (fst (SetCompact nCompact)).

(** Modelled from the spec: [arith_uint256::GetCompact()] with
    [fNegative = false], the encoder of section 4.1. *)
Definition GetCompact (v : arith_uint256) : Z :=
  let nSize := (bits v + 7) / 8 in
  let nCompact :=
    if nSize <=? 3
    then uint32 (Z.shiftl (GetLow64 v) (8 * (3 - nSize)))
    else uint32 (GetLow64 (Z.shiftr v (8 * (nSize - 3)))) in
  let '(nCompact, nSize) :=
    if negb (Z.land nCompact 0x00800000 =? 0)
    then (Z.shiftr nCompact 8, nSize + 1)
    else (nCompact, nSize) in
  Z.lor nCompact (Z.shiftl nSize 24).

(** [a * b32] through [base_uint::operator*=(uint32_t)]: an [int64_t]
    right operand is converted to [uint32_t] by overload resolution. *)
Definition mul32 (a : arith_uint256) (b : Z) : arith_uint256 :=
  wrap256 (a * uint32 b).

(** [a / b] through [base_uint::operator/=(const base_uint&)]: an
    [int64_t] right operand goes through [base_uint(uint64_t)]; a zero
    divisor throws [uint_error]. *)
Definition div64 (a : arith_uint256) (b : Z) : option arith_uint256 :=
  if uint64 b =? 0 then None else Some (a / uint64 b).

Definition add (a b : arith_uint256) : arith_uint256 := wrap256 (a + b).

End Arith256.

(** ** Block index and consensus parameters *)

Module CBlockIndex.

(** The fields of [CBlockIndex] (chain.h) that pow.cpp and the submission
    gate read.  [pprev] is the parent pointer, [None] for a null pointer. *)
Inductive t : Type := mk {
  nHeight : Z;
  nTime : Z;
  nBits : Z;
  nStatus : Z;
  pprev : option t
}.

Definition GetBlockTime (p : t) : Z := nTime p.

Fixpoint walk (steps : nat) (p : t) : option t :=
  match steps with
  | O => Some p
  | S n => match pprev p with
           | None => None
           | Some q => walk n q
           end
  end.

(** Modelled from the spec: [CBlockIndex::GetAncestor(height)] (chain.cpp)
    is not among the sources; "pindexLast.ancestor(h)" of section 4.3 is
    null for a height above the index's own or below zero, and otherwise
    the index reached by following parent pointers [nHeight - height]
    times (the skip list only shortens the walk). *)
Definition GetAncestor (p : t) (height : Z) : option t :=
  if (height >? nHeight p) || (height <? 0) then None
  else walk (Z.to_nat (nHeight p - height)) p.

End CBlockIndex.

Module Consensus.

Record Params : Type := mkParams {
  hashGenesisBlock : uint256;
  powLimit : uint256;
  fPowAllowMinDifficultyBlocks : bool;
  fPowNoRetargeting : bool;
  nPowTargetSpacing : Z;
  nPowTargetSpacingV2 : Z;
  nPowTargetTimespan : Z;
  nAuxpowStartHeight : Z
}.

(** The quotient of the two [int64_t] members is returned as [int]. *)
Definition DifficultyAdjustmentInterval (params : Params) (nHeight : Z)
  : option Z :=
  option_map int32
    (if nHeight <? 29000
     then c_div (nPowTargetTimespan params) (nPowTargetSpacing params)
     else c_div (nPowTargetTimespan params) (nPowTargetSpacingV2 params)).

End Consensus.

(** ** primitives/block.h: the block header *)

Module CBlockHeader.

Definition BASE_VERSION : Z := 7.
Definition AUXPOW_VERSION_BIT : Z := Z.shiftl 1 8.

Record t : Type := mk {
  nVersion : Z;
  hashPrevBlock : uint256;
  hashMerkleRoot : uint256;
  nTime : Z;
  nBits : Z;
  nNonce : Z
}.

Definition SetNull : t := mk BASE_VERSION 0 0 0 0 0.

Definition IsNull (h : t) : bool := nBits h =? 0.

Definition GetBlockTime (h : t) : Z := nTime h.

(** [return nVersion & AUXPOW_VERSION_BIT;] converted to [bool]. *)
Definition IsAuxpow (h : t) : bool :=
  negb (Z.land (nVersion h) AUXPOW_VERSION_BIT =? 0).

(** [nVersion &= ~AUXPOW_VERSION_BIT]. *)
Definition clear_auxpow_bit (h : t) : t :=
  mk (Z.land (nVersion h) (Z.lnot AUXPOW_VERSION_BIT))
     (hashPrevBlock h) (hashMerkleRoot h) (nTime h) (nBits h) (nNonce h).

End CBlockHeader.

(** ** pow.cpp: the difficulty engine *)

Module Pow.
Import Arith256.

Definition LWMA_N : Z := 240.

(** The loop state of [LwmaCalculateNextWorkRequired]. *)
Record lwma_state : Type := mkLwma {
  previousTimestamp : Z;
  j : Z;
  t : Z;
  sumTarget : arith_uint256
}.

(** One pass of the loop body at height [i]; [None] is the early
    [return powLimit.GetCompact()] taken when the ancestor is missing. *)
Definition lwma_step (pindexLast : CBlockIndex.t) (T : Z) (i : Z)
    (st : lwma_state) : option lwma_state :=
  match CBlockIndex.GetAncestor pindexLast i with
  | None => None
  | Some blockCurrent =>
      let thisTimestamp := CBlockIndex.GetBlockTime blockCurrent in
      let thisTimestamp :=
        if thisTimestamp <? previousTimestamp st
        then previousTimestamp st else thisTimestamp in
      let solvetime := Z.max 1 (thisTimestamp - previousTimestamp st) in
      let solvetime := Z.min (6 * T) solvetime in
      let j' := j st + 1 in
      let t' := t st + solvetime * j' in
      let target := decode (CBlockIndex.nBits blockCurrent) in
      Some (mkLwma thisTimestamp j' t' (add (sumTarget st) target))
  end.

(** [for (i = height - N + 1; i <= height; i++)]: [count] passes starting
    at height [i]. *)
Fixpoint lwma_loop (pindexLast : CBlockIndex.t) (T : Z) (count : nat)
    (i : Z) (st : lwma_state) : option lwma_state :=
  match count with
  | O => Some st
  | S n =>
      match lwma_step pindexLast T i st with
      | None => None
      | Some st' => lwma_loop pindexLast T n (i + 1) st'
      end
  end.

(** The window sums [(t, sumTarget)] over the [N] most recent blocks, when
    every ancestor of the window is found. *)
Definition lwma_window (pindexLast : CBlockIndex.t) (T : Z)
  : option lwma_state :=
  let height := CBlockIndex.nHeight pindexLast in
  match CBlockIndex.GetAncestor pindexLast (height - LWMA_N) with
  | None => None
  | Some blockStart =>
      lwma_loop pindexLast T (Z.to_nat LWMA_N) (height - LWMA_N + 1)
        (mkLwma (CBlockIndex.GetBlockTime blockStart) 0 0 0)
  end.

(** [avgTarget * t / (k * T)], before the clamp to [powLimit]. *)
Definition lwma_next (T k : Z) (st : lwma_state) : option arith_uint256 :=
  let avgTarget := sumTarget st / uint64 LWMA_N in
  div64 (mul32 avgTarget (t st)) (k * T).

Definition LwmaCalculateNextWorkRequired (pindexLast : CBlockIndex.t)
    (params : Consensus.Params) : option Z :=
  let T := Consensus.nPowTargetSpacingV2 params in
  let N := LWMA_N in
  let k := Z.quot (N * (N + 1) * T) 2 in
  let height := CBlockIndex.nHeight pindexLast in
  let powLimit := UintToArith256 (Consensus.powLimit params) in
  if height =? 0 then Some (GetCompact powLimit)
  else if height <? N then Some (GetCompact powLimit)
  else
    match lwma_window pindexLast T with
    | None => Some (GetCompact powLimit)
    | Some st =>
        if (N =? 0) || (T =? 0) || (k =? 0) then Some (GetCompact powLimit)
        else
          match lwma_next T k st with
          | None => None
          | Some nextTarget =>
              let nextTarget :=
                if nextTarget >? powLimit then powLimit else nextTarget in
              Some (GetCompact nextTarget)
          end
    end.

Definition CalculateNextWorkRequired (pindexLast : CBlockIndex.t)
    (nFirstBlockTime : Z) (params : Consensus.Params) : option Z :=
  if Consensus.fPowNoRetargeting params
  then Some (CBlockIndex.nBits pindexLast)
  else
    let nPowTargetTimespan := Consensus.nPowTargetTimespan params in
    let nActualTimespan :=
      CBlockIndex.GetBlockTime pindexLast - nFirstBlockTime in
    let nActualTimespan :=
      if nActualTimespan <? Z.quot nPowTargetTimespan 4
      then Z.quot nPowTargetTimespan 4 else nActualTimespan in
    let nActualTimespan :=
      if nActualTimespan >? nPowTargetTimespan * 4
      then nPowTargetTimespan * 4 else nActualTimespan in
    let bnPowLimit := UintToArith256 (Consensus.powLimit params) in
    let bnNew := decode (CBlockIndex.nBits pindexLast) in
    let bnNew := mul32 bnNew nActualTimespan in
    match div64 bnNew nPowTargetTimespan with
    | None => None
    | Some bnNew =>
        let bnNew := if bnNew >? bnPowLimit then bnPowLimit else bnNew in
        Some (GetCompact bnNew)
    end.

(** The [while] loop of the min-difficulty rule: step back while there is
    a parent, the height is off the retarget boundary and the block
    carries the minimum difficulty. *)
Fixpoint last_non_min_difficulty (params : Consensus.Params)
    (nProofOfWorkLimit : Z) (pindex : CBlockIndex.t) : option Z :=
  match pindex with
  | CBlockIndex.mk nHeight _ nBits _ None => Some nBits
  | CBlockIndex.mk nHeight _ nBits _ (Some prev) =>
      match Consensus.DifficultyAdjustmentInterval params nHeight with
      | None => None
      | Some interval =>
          match c_rem nHeight interval with
          | None => None
          | Some r =>
              if negb (r =? 0) && (nBits =? nProofOfWorkLimit)
              then last_non_min_difficulty params nProofOfWorkLimit prev
              else Some nBits
          end
      end
  end.

(** The branch of [GetNextWorkRequired] below height 29000 ("Alter Bitcoin
    Difficulty Adjustment Algo"), with [nHeight = pindexLast->nHeight + 1]. *)
Definition LegacyNextWorkRequired (pindexLast : CBlockIndex.t)
    (pblock : CBlockHeader.t) (params : Consensus.Params)
    (nProofOfWorkLimit nHeight : Z) : option Z :=
  match Consensus.DifficultyAdjustmentInterval params nHeight with
  | None => None
  | Some interval =>
      match c_rem nHeight interval with
      | None => None
      | Some r =>
          if negb (r =? 0) then
            if Consensus.fPowAllowMinDifficultyBlocks params then
              if CBlockHeader.GetBlockTime pblock >?
                 CBlockIndex.GetBlockTime pindexLast
                 + Consensus.nPowTargetSpacing params * 2
              then Some nProofOfWorkLimit
              else last_non_min_difficulty params nProofOfWorkLimit
                     pindexLast
            else Some (CBlockIndex.nBits pindexLast)
          else
            let nHeightFirst :=
              CBlockIndex.nHeight pindexLast - (interval - 1) in
            if nHeightFirst <? 0 then None
            else
              match CBlockIndex.GetAncestor pindexLast nHeightFirst with
              | None => None
              | Some pindexFirst =>
                  CalculateNextWorkRequired pindexLast
                    (CBlockIndex.GetBlockTime pindexFirst) params
              end
      end
  end.

Definition GetNextWorkRequired (pindexLast : CBlockIndex.t)
    (pblock : CBlockHeader.t) (params : Consensus.Params) : option Z :=
  let nProofOfWorkLimit :=
    GetCompact (UintToArith256 (Consensus.powLimit params)) in
  if (CBlockIndex.nHeight pindexLast >=? 28930)
     && (CBlockIndex.nHeight pindexLast <=? 28999)
  then Some nProofOfWorkLimit
  else
    let nHeight := CBlockIndex.nHeight pindexLast + 1 in
    if nHeight >=? 29000
    then LwmaCalculateNextWorkRequired pindexLast params
    else LegacyNextWorkRequired pindexLast pblock params
           nProofOfWorkLimit nHeight.

(** [return error(...)] logs its message and returns [false]. *)
Definition CheckProofOfWork (hash : uint256) (nBits : Z)
    (params : Consensus.Params) : bool :=
  let '(bnTarget, fNegative, fOverflow) := SetCompact nBits in
  if fNegative || (bnTarget =? 0) || fOverflow
     || (bnTarget >? UintToArith256 (Consensus.powLimit params))
  then false
  else if UintToArith256 hash >? bnTarget then false
  else true.

End Pow.

(** ** primitives/block.h: transactions, AuxPoW proof, block *)

(** [CTxIn] and [CTransaction] (primitives/transaction.h) are not among the
    sources; the verifier reads the inputs' signature scripts only, the other
    fields are kept as an opaque payload for hashing. *)
Record CTxIn : Type := mkTxIn { scriptSig : list byte }.

Record CTransaction : Type := mkTx {
  vin : list CTxIn;
  tx_payload : list byte
}.

(** The hash functions of hash.h / crypto, which the sources call but do not
    contain.  [SerializeHash] is the double SHA-256 of the six-field header
    serialization, [Hash a b] the double SHA-256 of the concatenation of two
    256-bit blobs ([Hash(BEGIN(a), END(a), BEGIN(b), END(b))]), [TxGetHash]
    the transaction id. *)
Class Hashing : Type := {
  SerializeHash : CBlockHeader.t -> uint256;
  Hash : uint256 -> uint256 -> uint256;
  TxGetHash : CTransaction -> uint256
}.

Module CAuxPow.

Record t : Type := mk {
  coinbaseTx : option CTransaction;
  hashBlock : uint256;
  vMerkleBranch : list uint256;
  nIndex : Z;
  vChainMerkleBranch : list uint256;
  nChainIndex : Z;
  parentBlock : CBlockHeader.t
}.

Definition SetNull : t := mk None 0 [] 0 [] 0 CBlockHeader.SetNull.

End CAuxPow.

Module CBlock.

(** [CBlock : public CBlockHeader]: the base sub-object is [header]. *)
Record t : Type := mk {
  header : CBlockHeader.t;
  vtx : list CTransaction;
  m_auxpow : option CAuxPow.t;
  fChecked : bool
}.

Definition SetNull : t := mk CBlockHeader.SetNull [] None false.

Definition IsAuxpow (b : t) : bool := CBlockHeader.IsAuxpow (header b).

(** The [shared_ptr] [m_auxpow] converted to [bool]. *)
Definition has_auxpow (b : t) : bool :=
  match m_auxpow b with Some _ => true | None => false end.

Definition GetBlockHeader (b : t) : CBlockHeader.t :=
  let h := header b in
  CBlockHeader.mk (CBlockHeader.nVersion h) (CBlockHeader.hashPrevBlock h)
    (CBlockHeader.hashMerkleRoot h) (CBlockHeader.nTime h)
    (CBlockHeader.nBits h) (CBlockHeader.nNonce h).

End CBlock.

Section BlockHashing.
Context {hashing : Hashing}.

(** [CBlockHeader::GetHash]. *)
Definition GetHash (h : CBlockHeader.t) : uint256 := SerializeHash h.

(** block.cpp *)
Fixpoint ComputeMerkleRootFromBranch (hash : uint256)
    (vMerkleBranch : list uint256) (nIndex : Z) : uint256 :=
  match vMerkleBranch with
  | [] => hash
  | step :: rest =>
      let currentHash :=
        if negb (Z.land nIndex 1 =? 0)
        then Hash step hash
        else Hash hash step in
      ComputeMerkleRootFromBranch currentHash rest (Z.shiftr nIndex 1)
  end.

Definition CheckMerkleBranch (hash : uint256)
    (vMerkleBranch : list uint256) (nIndex : Z) : uint256 :=
  ComputeMerkleRootFromBranch hash vMerkleBranch nIndex.

Definition GetParentBlockHash (ap : CAuxPow.t) : uint256 :=
  GetHash (CAuxPow.parentBlock ap).

Definition CheckChainMerkleBranch (ap : CAuxPow.t) (hash : uint256)
    (nIndex : Z) : uint256 :=
  match CAuxPow.vChainMerkleBranch ap with
  | [] => 0
  | _ => ComputeMerkleRootFromBranch hash (CAuxPow.vChainMerkleBranch ap)
           nIndex
  end.

Definition GetPoWHash (b : CBlock.t) : uint256 :=
  match CBlock.IsAuxpow b, CBlock.m_auxpow b with
  | true, Some ap => GetParentBlockHash ap
  | _, _ => GetHash (CBlock.header b)
  end.

End BlockHashing.

(** ** pow.cpp: the AuxPoW verifier *)

Definition pchAuxPowHeader : list byte :=
  [Byte.x70; Byte.x6c; Byte.x6d; Byte.x01].

Definition byte_eqb (a b : byte) : bool := byte.unsigned a =? byte.unsigned b.

Fixpoint starts_with (needle hay : list byte) : bool :=
  match needle, hay with
  | [], _ => true
  | _ :: _, [] => false
  | a :: needle', b :: hay' => byte_eqb a b && starts_with needle' hay'
  end.

(** [std::search(first, last, s_first, s_last)] as the offset of the first
    occurrence from [first]; the offset of [last], that is [length hay], when
    there is none. *)
Fixpoint std_search (hay needle : list byte) : nat :=
  if starts_with needle hay then 0%nat
  else match hay with
       | [] => 0%nat
       | _ :: hay' => S (std_search hay' needle)
       end.

(** The messages handed to [error(...)] by [CheckAuxPowProofOfWork], in
    source order. *)
Inductive AuxPowError : Type :=
| ErrNoVersionBit        (* Block does not have AuxPoW version bit set *)
| ErrNoAuxPowData        (* No AuxPoW data present in AuxPoW block *)
| ErrParentPow           (* Bitcoin parent block PoW does not meet target *)
| ErrMerkleBranch        (* Merkle branch for Coinbase Tx verification failed *)
| ErrMagicNotFound       (* AuxPoW magic bytes not found in Coinbase scriptSig *)
| ErrCommitmentTooShort  (* Commitment data too short in Coinbase scriptSig *)
| ErrCommitmentMismatch  (* AuxPoW commitment mismatch *)
| ErrDuplicateParent.    (* duplicate proof-of-work parent block hash *)

(** [Passed] is [return true]; [Failed e] is [return error(e)], that is
    [false] after logging [e]. *)
Inductive AuxPowVerdict : Type :=
| Passed
| Failed (e : AuxPowError).

Definition verdict_bool (v : AuxPowVerdict) : bool :=
  match v with Passed => true | Failed _ => false end.

Section AuxPowVerifier.
Context {hashing : Hashing}.

(** The part of the verifier that locates and compares the commitment,
    lines 253-296, and then consults the duplicate-parent set. *)
Definition check_commitment (block : CBlock.t) (ap : CAuxPow.t)
    (scriptSig : list byte) (scanned : gset uint256) : AuxPowVerdict :=
  let pc := std_search scriptSig pchAuxPowHeader in
  if (pc =? length scriptSig)%nat then Failed ErrMagicNotFound
  else
    let vchCommitment :=
      skipn (pc + length pchAuxPowHeader) scriptSig in
    if (length vchCommitment <? 32)%nat then Failed ErrCommitmentTooShort
    else
      let hashAuxBlockCommit :=
        Uint256.of_bytes (firstn 32 vchCommitment) in
      let hashAuxBlockCommit := Uint256.reverse hashAuxBlockCommit in
      let headerNoAux :=
        CBlockHeader.clear_auxpow_bit (CBlock.GetBlockHeader block) in
      let hashAuxBlockExpected := GetHash headerNoAux in
      if negb (hashAuxBlockCommit =? hashAuxBlockExpected)
      then Failed ErrCommitmentMismatch
      else if bool_decide (GetParentBlockHash ap ∈ scanned)
      then Failed ErrDuplicateParent
      else Passed.

(** [CheckAuxPowProofOfWork] run against the process-wide set
    [setAuxPowScannedParentHashes]; the result pairs the verdict with the
    set as the call leaves it.  The verdict is [None] when the proof's
    coinbase pointer is null or the coinbase has no input, which the
    source dereferences unchecked. *)
Definition CheckAuxPowProofOfWork (block : CBlock.t)
    (params : Consensus.Params)
    (setAuxPowScannedParentHashes : gset uint256)
  : option AuxPowVerdict * gset uint256 :=
  let scanned := setAuxPowScannedParentHashes in
  if negb (CBlock.IsAuxpow block) then (Some (Failed ErrNoVersionBit), scanned)
  else
    match CBlock.m_auxpow block with
    | None => (Some (Failed ErrNoAuxPowData), scanned)
    | Some ap =>
        if negb (Pow.CheckProofOfWork (GetParentBlockHash ap)
                   (CBlockHeader.nBits (CBlock.header block)) params)
        then (Some (Failed ErrParentPow), scanned)
        else
          match CAuxPow.coinbaseTx ap with
          | None => (None, scanned)
          | Some coinbaseTx =>
              let hashCoinbase := TxGetHash coinbaseTx in
              let calculatedMerkleRoot :=
                CheckMerkleBranch hashCoinbase (CAuxPow.vMerkleBranch ap)
                  (CAuxPow.nIndex ap) in
              if negb (CBlockHeader.hashMerkleRoot (CAuxPow.parentBlock ap)
                       =? calculatedMerkleRoot)
              then (Some (Failed ErrMerkleBranch), scanned)
              else
                match vin coinbaseTx with
                | [] => (None, scanned)
                | vin0 :: _ =>
                    (Some (check_commitment block ap (scriptSig vin0)
                             scanned), scanned)
                end
          end
    end.

End AuxPowVerifier.

(** ** primitives/block.h: deserialization *)

Module Wire.

(** A stream is the list of bytes still to be read; a reader returns the
    value and the rest, or [None] where the source throws
    [std::ios_base::failure]. *)
Definition stream : Type := list byte.

Definition read_bytes (n : nat) (s : stream) : option (list byte * stream) :=
  if (length s <? n)%nat then None else Some (firstn n s, skipn n s).

(** Modelled from the spec: the primitive readers of serialize.h are not
    among the sources; section 3 gives the header as
    [(version: i32, prevHash: H256, merkleRoot: H256, time: u32, bits,
    nonce: u32)], read in that order, fixed width, little-endian. *)
Definition read_uint32 (s : stream) : option (Z * stream) :=
  '(b, s') ← read_bytes 4 s; Some (le_combine b, s').

Definition read_int32 (s : stream) : option (Z * stream) :=
  '(u, s') ← read_uint32 s;
  Some (if u <? 2 ^ 31 then u else u - 2 ^ 32, s').

Definition read_uint256 (s : stream) : option (uint256 * stream) :=
  '(b, s') ← read_bytes 32 s; Some (Uint256.of_bytes b, s').

(** [CBlockHeader::SerializationOp], writing: the 80 bytes of a header. *)
Definition CBlockHeader_Serialize (h : CBlockHeader.t) : list byte :=
  le_split 4 (CBlockHeader.nVersion h)
  ++ le_split 32 (CBlockHeader.hashPrevBlock h)
  ++ le_split 32 (CBlockHeader.hashMerkleRoot h)
  ++ le_split 4 (CBlockHeader.nTime h)
  ++ le_split 4 (CBlockHeader.nBits h)
  ++ le_split 4 (CBlockHeader.nNonce h).

(** The variable-length readers of serialize.h and transaction.h:
    a transaction reference, a vector of hashes, the transaction list. *)
Class Readers : Type := {
  read_tx : stream -> option (CTransaction * stream);
  read_hashes : stream -> option (list uint256 * stream);
  read_vtx : stream -> option (list CTransaction * stream)
}.

Section Unserialize.
Context {hashing : Hashing} {readers : Readers}.

(** [CBlockHeader::SerializationOp], reading. *)
Definition CBlockHeader_Unserialize (s : stream)
  : option (CBlockHeader.t * stream) :=
  '(nVersion, s) ← read_int32 s;
  '(hashPrevBlock, s) ← read_uint256 s;
  '(hashMerkleRoot, s) ← read_uint256 s;
  '(nTime, s) ← read_uint32 s;
  '(nBits, s) ← read_uint32 s;
  '(nNonce, s) ← read_uint32 s;
  Some (CBlockHeader.mk nVersion hashPrevBlock hashMerkleRoot nTime nBits
          nNonce, s).

(** [CAuxPow::SerializationOp], reading: every field is overwritten. *)
Definition CAuxPow_Unserialize (s : stream) : option (CAuxPow.t * stream) :=
  '(coinbaseTx, s) ← read_tx s;
  '(hashBlock, s) ← read_uint256 s;
  '(vMerkleBranch, s) ← read_hashes s;
  '(nIndex, s) ← read_int32 s;
  '(vChainMerkleBranch, s) ← read_hashes s;
  '(nChainIndex, s) ← read_int32 s;
  '(parentBlock, s) ← CBlockHeader_Unserialize s;
  Some (CAuxPow.mk (Some coinbaseTx) hashBlock vMerkleBranch nIndex
          vChainMerkleBranch nChainIndex parentBlock, s).

(** [CBlock::SerializationOp] with [ser_action.ForRead()], on the block
    object [blk] being read into. *)
Definition CBlock_Unserialize (blk : CBlock.t) (s : stream)
  : option (CBlock.t * stream) :=
  '(hdr, s) ← CBlockHeader_Unserialize s;
  let auxpowActive := CBlockHeader.IsAuxpow hdr in
  if auxpowActive then
    '(ap, s) ← CAuxPow_Unserialize s;
    let m_auxpow :=
      if Uint256.IsNull (GetParentBlockHash ap) then None else Some ap in
    '(vtx, s) ← read_vtx s;
    Some (CBlock.mk hdr vtx m_auxpow (CBlock.fChecked blk), s)
  else
    let m_auxpow : option CAuxPow.t := None in
    '(vtx, s) ← read_vtx s;
    Some (CBlock.mk hdr vtx m_auxpow (CBlock.fChecked blk), s).

End Unserialize.

End Wire.

(** ** rpc/mining.cpp: block submission *)

Module Mining.

Inductive RPCErrorCode : Type :=
| RPC_DESERIALIZATION_ERROR
| RPC_VERIFY_ERROR.

Inductive UniValue : Type :=
| NullUniValue
| VSTR (s : string).

(** What an RPC handler does: return a value or throw [JSONRPCError]. *)
Inductive rpc_result : Type :=
| Return (v : UniValue)
| Throw (code : RPCErrorCode) (message : string).

Inductive ModeState : Type := M_VALID | M_INVALID | M_ERROR.

Inductive BlockValidationResult : Type :=
| BLOCK_RESULT_UNSET
| BLOCK_HEADER_DUPLICATE
| BLOCK_INVALID_HEADER
| BLOCK_INVALID_PREV
| BLOCK_OTHER_RESULT.

Record BlockValidationState : Type := mkState {
  m_mode : ModeState;
  m_result : BlockValidationResult;
  m_reject_reason : string
}.

(** What [submitblock] observes of [ProcessNewBlock]: the return value,
    [*fNewBlock], and the state caught by [submitblock_StateCatcher]
    when [BlockChecked] fired for this block. *)
Record ProcessResult : Type := mkProcess {
  accepted : bool;
  new_block : bool;
  caught : option BlockValidationState
}.

(** The node services that [submitblock] calls and the sources do not
    contain (validation.cpp, chain.h, transaction.h). *)
Class Node : Type := {
  IsCoinBase : CTransaction -> bool;
  IsValid_SCRIPTS : CBlockIndex.t -> bool;
  BLOCK_FAILED_MASK : Z;
  StateToString : BlockValidationState -> string;
  ProcessNewBlock : gmap uint256 CBlockIndex.t -> CBlock.t -> ProcessResult
}.

Definition result_eqb (a b : BlockValidationResult) : bool :=
  match a, b with
  | BLOCK_RESULT_UNSET, BLOCK_RESULT_UNSET
  | BLOCK_HEADER_DUPLICATE, BLOCK_HEADER_DUPLICATE
  | BLOCK_INVALID_HEADER, BLOCK_INVALID_HEADER
  | BLOCK_INVALID_PREV, BLOCK_INVALID_PREV
  | BLOCK_OTHER_RESULT, BLOCK_OTHER_RESULT => true
  | _, _ => false
  end.

Section Submit.
Context {hashing : Hashing} {node : Node}.

Definition BIP22ValidationResult (state : BlockValidationState)
  : rpc_result :=
  match m_mode state with
  | M_VALID => Return NullUniValue
  | M_ERROR => Throw RPC_VERIFY_ERROR (StateToString state)
  | M_INVALID =>
      let strRejectReason := m_reject_reason state in
      if String.eqb strRejectReason EmptyString
      then Return (VSTR "rejected")
      else if (result_eqb (m_result state) BLOCK_HEADER_DUPLICATE
               || result_eqb (m_result state) BLOCK_INVALID_HEADER)
              && String.eqb strRejectReason "duplicate"
      then Return (VSTR "duplicate")
      else if (result_eqb (m_result state) BLOCK_HEADER_DUPLICATE
               || result_eqb (m_result state) BLOCK_INVALID_HEADER)
              && String.eqb strRejectReason "duplicate-invalid"
      then Return (VSTR "duplicate-invalid")
      else if result_eqb (m_result state) BLOCK_INVALID_PREV
      then Return (VSTR "inconclusive-not-best-prevblk")
      else Return (VSTR strRejectReason)
  end.

Definition LookupBlockIndex (mapBlockIndex : gmap uint256 CBlockIndex.t)
    (hash : uint256) : option CBlockIndex.t :=
  mapBlockIndex !! hash.

(** Lines 933-948: the would-be height and whether AuxPoW is due at it,
    or the exception thrown when the predecessor is unknown. *)
Definition submitblock_height (block : CBlock.t)
    (mapBlockIndex : gmap uint256 CBlockIndex.t)
    (consensusParams : Consensus.Params) : rpc_result + (Z * bool) :=
  match LookupBlockIndex mapBlockIndex
          (CBlockHeader.hashPrevBlock (CBlock.header block)) with
  | Some pindexPrev =>
      let nHeight := CBlockIndex.nHeight pindexPrev + 1 in
      inr (nHeight,
           nHeight >=? Consensus.nAuxpowStartHeight consensusParams)
  | None =>
      if GetHash (CBlock.header block)
         =? Consensus.hashGenesisBlock consensusParams
      then
        let nHeight := 0 in
        inr (nHeight,
             nHeight >=? Consensus.nAuxpowStartHeight consensusParams)
      else
        inl (Throw RPC_VERIFY_ERROR
               "Block rejected: previous block not known")
  end.

(** Lines 967-1033: what follows the AuxPoW gate. *)
Definition submitblock_process (block : CBlock.t)
    (mapBlockIndex : gmap uint256 CBlockIndex.t) : rpc_result :=
  let no_coinbase :=
    match CBlock.vtx block with
    | [] => true
    | tx0 :: _ => negb (IsCoinBase tx0)
    end in
  if no_coinbase then Return (VSTR "rejected: bad-cb-missing")
  else
    let hash := GetHash (CBlock.header block) in
    let known :=
      match LookupBlockIndex mapBlockIndex hash with
      | Some pindex =>
          if IsValid_SCRIPTS pindex then Some (VSTR "duplicate")
          else if negb (Z.land (CBlockIndex.nStatus pindex)
                          BLOCK_FAILED_MASK =? 0)
          then Some (VSTR "duplicate-invalid")
          else None
      | None => None
      end in
    match known with
    | Some v => Return v
    | None =>
        match LookupBlockIndex mapBlockIndex
                (CBlockHeader.hashPrevBlock (CBlock.header block)) with
        | None => Return (VSTR "inconclusive - not-best-prevblk")
        | Some _ =>
            let r := ProcessNewBlock mapBlockIndex block in
            match caught r with
            | Some state => BIP22ValidationResult state
            | None =>
                if negb (accepted r) then Return (VSTR "rejected")
                else if negb (new_block r) then Return (VSTR "duplicate")
                else Return NullUniValue
            end
        end
    end.

(** [submitblock] on the outcome of [DecodeHexBlk] ([None] when it
    returns false). *)
Definition submitblock (decoded : option CBlock.t)
    (mapBlockIndex : gmap uint256 CBlockIndex.t)
    (consensusParams : Consensus.Params) : rpc_result :=
  match decoded with
  | None => Throw RPC_DESERIALIZATION_ERROR "Block decode failed"
  | Some block =>
      let fBlockHasAuxPow := CBlock.IsAuxpow block in
      match submitblock_height block mapBlockIndex consensusParams with
      | inl thrown => thrown
      | inr (nHeight, fShouldHaveAuxPow) =>
          if fShouldHaveAuxPow && negb fBlockHasAuxPow
          then Return (VSTR "rejected: bad-auxpow-version-missing")
          else if negb fShouldHaveAuxPow && fBlockHasAuxPow
          then Return (VSTR "rejected: bad-auxpow-unexpected")
          else if fShouldHaveAuxPow && negb (CBlock.has_auxpow block)
          then Return (VSTR "rejected: bad-auxpow-data-missing")
          else submitblock_process block mapBlockIndex
      end
  end.

End Submit.

End Mining.

(** ** chainparams.cpp: the test networks *)

Module ChainParams.

Definition INT_MAX : Z := 2147483647.

(** The consensus fields of [CTestNetParams] that this development reads.
    The constructor leaves [nPowTargetSpacingV2] at the 0 and
    [nAuxpowStartHeight] at the [MAX_BLOCK_HEIGHT] that [Consensus::Params()]
    gives them. *)
Definition testnet_consensus : Consensus.Params :=
  Consensus.mkParams
    0x000000000933ea01ad0ee984209779baaec3ced90fa3f408719526f8d77f4943
    0x00000000ffffffffffffffffffffffffffffffffffffffffffffffffffffffff
    true false (2 * 60) 0 (24 * 60 * 60) INT_MAX.

(** The same fields of [CRegTestParams]. *)
Definition regtest_consensus : Consensus.Params :=
  Consensus.mkParams
    0x0f9188f13cb7b2c71f2a335e3a4fc328bf5beb436012afca590b1a11466e2206
    0x7fffffffffffffffffffffffffffffffffffffffffffffffffffffffffffffff
    true true (2 * 60) 0 (24 * 60 * 60) INT_MAX.

(** The [-segwitheight] half of
    [CRegTestParams::UpdateActivationParametersFromArgs]: [arg] is the value
    of the argument when it is set, the result the new [SegwitHeight], and
    [None] the thrown [std::runtime_error]. *)
Definition UpdateSegwitHeight (arg : option Z) (SegwitHeight : Z) : option Z :=
  match arg with
  | None => Some SegwitHeight
  | Some height =>
      if (height <? -1) || (height >=? INT_MAX) then None
      else if height =? -1 then Some INT_MAX
      else Some height
  end.

End ChainParams.

(** ** rpc/mining.cpp: header submission and block proposals *)

Module MiningRpc.
Import Mining.

Inductive HeaderErrorCode : Type :=
| RPC_DESERIALIZATION_ERROR
| RPC_VERIFY_ERROR
| RPC_INVALID_REQUEST.

(** What [submitheader] does: return [NullUniValue] or throw. *)
Inductive header_result : Type :=
| HeaderNull
| HeaderThrow (code : HeaderErrorCode) (message : string).

(** The validation entry points these handlers call (validation.cpp):
    [ProcessNewBlockHeaders] with the state it leaves, and
    [TestBlockValidity] on the active tip with the state it leaves. *)
Class Validation : Type := {
  ProcessNewBlockHeaders :
    gmap uint256 CBlockIndex.t -> CBlockHeader.t -> bool * BlockValidationState;
  TestBlockValidity :
    gmap uint256 CBlockIndex.t -> CBlock.t -> bool * BlockValidationState
}.

Section Handlers.
Context {hashing : Hashing} {node : Node} {validation : Validation}.

(** [submitheader] on the outcome of [DecodeHexBlockHeader]. *)
Definition submitheader (decoded : option CBlockHeader.t)
    (mapBlockIndex : gmap uint256 CBlockIndex.t)
    (consensusParams : Consensus.Params) : header_result :=
  match decoded with
  | None => HeaderThrow RPC_DESERIALIZATION_ERROR "Block header decode failed"
  | Some h =>
      let height_or_throw : header_result + Z :=
        match LookupBlockIndex mapBlockIndex (CBlockHeader.hashPrevBlock h) with
        | Some pindexPrev => inr (CBlockIndex.nHeight pindexPrev + 1)
        | None =>
            if GetHash h =? Consensus.hashGenesisBlock consensusParams
            then inr 0
            else inl (HeaderThrow RPC_VERIFY_ERROR
                        "Submitheader rejected: previous block not known")
        end in
      match height_or_throw with
      | inl thrown => thrown
      | inr nHeight =>
          if nHeight >=? Consensus.nAuxpowStartHeight consensusParams
          then HeaderThrow RPC_INVALID_REQUEST
                 "Submitheader is incompatible with active AuxPoW"
          else
            let '(ok, state) := ProcessNewBlockHeaders mapBlockIndex h in
            if negb ok then
              match m_mode state with
              | M_INVALID => HeaderThrow RPC_VERIFY_ERROR (StateToString state)
              | _ => HeaderNull
              end
            else HeaderNull
      end
  end.

(** [CheckBlockTemplateProposal] on the outcome of [DecodeHexBlk]: the
    [state] of the [GBTValidity] it returns, or the thrown decode error.
    [state.Invalid(result, reason, debug)] is the invalid state with that
    result and reject reason. *)
Definition CheckBlockTemplateProposal (decoded : option CBlock.t)
    (mapBlockIndex : gmap uint256 CBlockIndex.t)
    : rpc_result + BlockValidationState :=
  match decoded with
  | None => inl (Throw Mining.RPC_DESERIALIZATION_ERROR "Block decode failed")
  | Some block =>
      let hash := GetHash (CBlock.header block) in
      let known :=
        match LookupBlockIndex mapBlockIndex hash with
        | Some pindex =>
            if IsValid_SCRIPTS pindex
            then Some (mkState M_INVALID BLOCK_HEADER_DUPLICATE "duplicate")
            else if negb (Z.land (CBlockIndex.nStatus pindex)
                            BLOCK_FAILED_MASK =? 0)
            then Some (mkState M_INVALID BLOCK_HEADER_DUPLICATE
                         "duplicate-invalid")
            else None
        | None => None
        end in
      match known with
      | Some state => inr state
      | None => inr (snd (TestBlockValidity mapBlockIndex block))
      end
  end.

(** [getblocktemplate] in mode ["proposal"], lines 640-648. *)
Definition getblocktemplate_proposal (decoded : option CBlock.t)
    (mapBlockIndex : gmap uint256 CBlockIndex.t) : rpc_result :=
  match CheckBlockTemplateProposal decoded mapBlockIndex with
  | inl thrown => thrown
  | inr state => BIP22ValidationResult state
  end.

End Handlers.

End MiningRpc.

(** ** Well-formed chains and parameter ranges *)

(** A block index whose parent pointers lead, one height at a time, down to
    a parentless block at height 0. *)
Inductive linked : CBlockIndex.t -> Prop :=
| linked_genesis nTime nBits nStatus :
    linked (CBlockIndex.mk 0 nTime nBits nStatus None)
| linked_next p nTime nBits nStatus :
    linked p ->
    linked (CBlockIndex.mk (CBlockIndex.nHeight p + 1) nTime nBits nStatus
              (Some p)).

(** The post-fork target spacings for which the [int64_t] products of
    [LwmaCalculateNextWorkRequired] stay in range: [k * T = 28920 * T * T]
    is the largest of them. *)
Definition lwma_spacing_ok (T : Z) : Prop := 0 < T /\ 28920 * T * T < 2 ^ 63.

(** The ranges of the six header fields: [int32_t], two 256-bit blobs and
    three [uint32_t]. *)
Definition header_in_range (h : CBlockHeader.t) : Prop :=
  - 2 ^ 31 <= CBlockHeader.nVersion h < 2 ^ 31 /\
  0 <= CBlockHeader.hashPrevBlock h < 2 ^ 256 /\
  0 <= CBlockHeader.hashMerkleRoot h < 2 ^ 256 /\
  0 <= CBlockHeader.nTime h < 2 ^ 32 /\
  0 <= CBlockHeader.nBits h < 2 ^ 32 /\
  0 <= CBlockHeader.nNonce h < 2 ^ 32.

(** A retarget boundary, as the loop of the min-difficulty rule tests it. *)
Definition on_boundary (params : Consensus.Params) (q : CBlockIndex.t) : Prop :=
  exists interval,
    Consensus.DifficultyAdjustmentInterval params (CBlockIndex.nHeight q)
    = Some interval /\
    interval <> 0 /\ Z.rem (CBlockIndex.nHeight q) interval = 0.

(** Off the boundary: the interval is defined and does not divide the
    height, so that test of the loop lets it go on. *)
Definition off_boundary (params : Consensus.Params) (q : CBlockIndex.t) : Prop :=
  exists interval,
    Consensus.DifficultyAdjustmentInterval params (CBlockIndex.nHeight q)
    = Some interval /\
    interval <> 0 /\ Z.rem (CBlockIndex.nHeight q) interval <> 0.

(** Where the loop of the min-difficulty rule, started at [p], ends: at [q],
    [n] parents back.  Every block before [q] passes the three tests of the
    [while] condition (a parent, off the boundary, the minimum difficulty
    [limit]); [q] fails one of them. *)
Definition min_difficulty_walk (params : Consensus.Params) (limit : Z)
    (p : CBlockIndex.t) (n : nat) (q : CBlockIndex.t) : Prop :=
  CBlockIndex.walk n p = Some q /\
  (forall m q', (m < n)%nat -> CBlockIndex.walk m p = Some q' ->
     CBlockIndex.pprev q' <> None /\ off_boundary params q' /\
     CBlockIndex.nBits q' = limit) /\
  (CBlockIndex.pprev q = None \/ on_boundary params q \/
   CBlockIndex.nBits q <> limit).

(** ** Concrete networks, chains and blocks for the examples *)

Module Fixtures.

(** [CMainParams] of chainparams.cpp; [nAuxpowStartHeight] keeps the
    constructor's default [MAX_BLOCK_HEIGHT]. *)
Definition main_consensus : Consensus.Params :=
  Consensus.mkParams
    0x000000000019d6689c085ae165831e934ff763ae46a2a6c172b3f1b60a8ce26f
    0x00000000ffffffffffffffffffffffffffffffffffffffffffffffffffffffff
    false false (10 * 60) (2 * 60) (24 * 60 * 60) 2147483647.

(** The same network with [fPowNoRetargeting] switched on. *)
Definition noretarget_consensus : Consensus.Params :=
  Consensus.mkParams (Consensus.hashGenesisBlock main_consensus)
    (Consensus.powLimit main_consensus) false true (10 * 60) (2 * 60)
    (24 * 60 * 60) 2147483647.

(** The same network with AuxPoW due from height 30000. *)
Definition auxpow_consensus : Consensus.Params :=
  Consensus.mkParams (Consensus.hashGenesisBlock main_consensus)
    (Consensus.powLimit main_consensus) false false (10 * 60) (2 * 60)
    (24 * 60 * 60) 30000.

(** A chain of [height + 1] blocks, all carrying [nBits], one block every
    [spacing] seconds from the genesis time. *)
Fixpoint chain (nBits spacing : Z) (height : nat) : CBlockIndex.t :=
  match height with
  | O => CBlockIndex.mk 0 1231006505 nBits 0 None
  | S n =>
      CBlockIndex.mk (Z.of_nat height)
        (1231006505 + spacing * Z.of_nat height) nBits 0
        (Some (chain nBits spacing n))
  end.

(** Stand-ins for the hash functions, enough to run the verifier: a header
    hashes to a weighted sum of its fields, a pair of hashes to a weighted
    sum, a transaction to its payload. *)
Definition sum_hashing : Hashing := {|
  SerializeHash h :=
    (CBlockHeader.nVersion h + 3 * CBlockHeader.hashPrevBlock h
     + 5 * CBlockHeader.hashMerkleRoot h + 7 * CBlockHeader.nTime h
     + 11 * CBlockHeader.nBits h + 13 * CBlockHeader.nNonce h) mod 2 ^ 256;
  Hash a b := (2 * a + 3 * b + 1) mod 2 ^ 256;
  TxGetHash tx := le_combine (tx_payload tx)
|}.

Fixpoint read_many {A : Type} (rd : Wire.stream -> option (A * Wire.stream))
    (n : nat) (s : Wire.stream) : option (list A * Wire.stream) :=
  match n with
  | O => Some ([], s)
  | S n' =>
      '(a, s) ← rd s;
      '(l, s) ← read_many rd n' s;
      Some (a :: l, s)
  end.

Definition read_count (s : Wire.stream) : option (nat * Wire.stream) :=
  '(b, s) ← Wire.read_bytes 1 s; Some (Z.to_nat (le_combine b), s).

(** Stand-ins for the variable-length readers: a one-byte count in front of
    the items; a transaction is one input's script and nothing else. *)
Definition short_tx (s : Wire.stream) : option (CTransaction * Wire.stream) :=
  '(n, s) ← read_count s;
  '(script, s) ← Wire.read_bytes n s;
  Some (mkTx [mkTxIn script] [], s).

Definition short_readers : Wire.Readers := {|
  Wire.read_tx := short_tx;
  Wire.read_hashes s := '(n, s) ← read_count s; read_many Wire.read_uint256 n s;
  Wire.read_vtx s := '(n, s) ← read_count s; read_many short_tx n s
|}.

(** A node that knows no coinbase rule beyond "has an input" and accepts
    every block it is handed. *)
Definition open_node : Mining.Node := {|
  Mining.IsCoinBase tx := match vin tx with [] => false | _ => true end;
  Mining.IsValid_SCRIPTS _ := false;
  Mining.BLOCK_FAILED_MASK := 96;
  Mining.StateToString st := Mining.m_reject_reason st;
  Mining.ProcessNewBlock _ _ :=
    Mining.mkProcess true true
      (Some (Mining.mkState Mining.M_VALID Mining.BLOCK_RESULT_UNSET
               EmptyString))
|}.

(** A merge-mined block: version [0x107], and a proof whose coinbase script
    carries the magic bytes followed by [commit] and two trailing bytes. *)
Definition aux_header (nBits : Z) : CBlockHeader.t :=
  CBlockHeader.mk 0x107 1 2 1700000000 nBits 42.

Definition parent_header : CBlockHeader.t :=
  CBlockHeader.mk 2 0 5 1700000000 0x1d00ffff 7.

Definition aux_proof (commit : list byte) : CAuxPow.t :=
  CAuxPow.mk
    (Some (mkTx [mkTxIn ([Byte.x03; Byte.x01] ++ pchAuxPowHeader ++ commit
                         ++ [Byte.x00; Byte.x01])]
                [Byte.x05]))
    0 [] 0 [] 0 parent_header.

Definition aux_block (nBits : Z) (commit : list byte) : CBlock.t :=
  CBlock.mk (aux_header nBits) [] (Some (aux_proof commit)) false.

(** The commitment that [aux_block] needs under [sum_hashing]. *)
Definition good_commit (nBits : Z) : list byte :=
  rev (Uint256.to_bytes
         (@GetHash sum_hashing
            (CBlockHeader.clear_auxpow_bit (aux_header nBits)))).

(** The bytes of a block with the AuxPoW flag set: the header, a proof
    (empty coinbase script, null [hashBlock], empty branches, zero indices,
    [parent_header]) and an empty transaction list. *)
Definition aux_stream : Wire.stream :=
  Wire.CBlockHeader_Serialize (aux_header 0x1d00ffff)
  ++ [Byte.x00] ++ le_split 32 0 ++ [Byte.x00] ++ le_split 4 0
  ++ [Byte.x00] ++ le_split 4 0
  ++ Wire.CBlockHeader_Serialize parent_header
  ++ [Byte.x00].

(** A block index holding one chain of six blocks under the hash 1, the
    [hashPrevBlock] of [aux_header]. *)
Definition small_index : gmap uint256 CBlockIndex.t :=
  {[ 1 := chain 0x1d00ffff 120 5 ]}.

End Fixtures.

(** ** More blocks, nodes and indices for the examples *)

Definition no_magic_block : CBlock.t :=
  CBlock.mk (Fixtures.aux_header 0x1d00ffff) []
    (Some (CAuxPow.mk (Some (mkTx [mkTxIn [Byte.x03; Byte.x01]] [Byte.x05]))
             0 [] 0 [] 0 Fixtures.parent_header)) false.

(** A node for which every indexed block is fully validated. *)
Definition settled_node : Mining.Node := {|
  Mining.IsCoinBase tx := match vin tx with [] => false | _ => true end;
  Mining.IsValid_SCRIPTS _ := true;
  Mining.BLOCK_FAILED_MASK := 96;
  Mining.StateToString st := Mining.m_reject_reason st;
  Mining.ProcessNewBlock _ _ := Mining.mkProcess false false None
|}.

(** Validation entry points that accept whatever they are handed. *)
Definition open_validation : MiningRpc.Validation := {|
  MiningRpc.ProcessNewBlockHeaders _ _ :=
    (true, Mining.mkState Mining.M_VALID Mining.BLOCK_RESULT_UNSET EmptyString);
  MiningRpc.TestBlockValidity _ _ :=
    (true, Mining.mkState Mining.M_VALID Mining.BLOCK_RESULT_UNSET EmptyString)
|}.

(** A block with a one-input first transaction and no AuxPoW flag, and an
    index that knows its predecessor and the block itself. *)
Definition plain_block : CBlock.t :=
  CBlock.mk (CBlockHeader.mk 7 1 2 1700000000 0x1d00ffff 42)
    [mkTx [mkTxIn []] []] None false.

Definition known_index : gmap uint256 CBlockIndex.t :=
  <[ GetHash (hashing := Fixtures.sum_hashing) (CBlock.header plain_block)
     := Fixtures.chain 0x1d00ffff 120 6 ]> Fixtures.small_index.

(** A chain whose blocks below height [split] carry [low] and the others
    [high], one block every [spacing] seconds. *)
Fixpoint stepped_chain (low high split spacing : Z) (height : nat)
  : CBlockIndex.t :=
  match height with
  | O =>
      CBlockIndex.mk 0 1231006505 (if 0 <? split then low else high) 0 None
  | S n =>
      CBlockIndex.mk (Z.of_nat height)
        (1231006505 + spacing * Z.of_nat height)
        (if Z.of_nat height <? split then low else high) 0
        (Some (stepped_chain low high split spacing n))
  end.

(** * Properties *)

(** Scenario S1 of the spec: the genesis target survives a round trip. *)
Example compact_1d00ffff :
  Arith256.GetCompact (Arith256.decode 0x1d00ffff) = 0x1d00ffff.
Proof. reflexivity. Qed.

Example decode_1d00ffff :
  Arith256.SetCompact 0x1d00ffff = (0xffff * 2 ^ 208, false, false).
Proof. reflexivity. Qed.

(** ** The compact codec *)

Section Codec.
Import Arith256.

Lemma bits_bounds v : 0 < v -> 2 ^ (bits v - 1) <= v < 2 ^ bits v.
Proof.
intros Hv. unfold bits. rewrite (proj2 (Z.eqb_neq v 0)) by lia.
replace (Z.log2 v + 1 - 1) with (Z.log2 v) by lia.
replace (Z.log2 v + 1) with (Z.succ (Z.log2 v)) by lia.
apply Z.log2_spec; lia.
Qed.

Lemma size_bounds v :
0 < v -> let nSize := (bits v + 7) / 8 in
1 <= nSize /\ 2 ^ (8 * (nSize - 1)) <= v < 2 ^ (8 * nSize).
Proof.
intros Hv nSize. pose proof (bits_bounds v Hv) as [Hlo Hhi].
assert (Hb : 1 <= bits v).
{ unfold bits. rewrite (proj2 (Z.eqb_neq v 0)) by lia. pose proof (Z.log2_nonneg v). lia. }
assert (Hn : 8 * nSize - 7 <= bits v <= 8 * nSize).
{ subst nSize. pose proof (Z.div_mod (bits v + 7) 8 ltac:(lia)).
  pose proof (Z.mod_pos_bound (bits v + 7) 8 ltac:(lia)). lia. }
split; [lia|]. split.
- eapply Z.le_trans; [|exact Hlo]. apply Z.pow_le_mono_r; lia.
- eapply Z.lt_le_trans; [exact Hhi|]. apply Z.pow_le_mono_r; lia.
Qed.
Lemma land_sign_bit x :
0 <= x < 2 ^ 24 -> (Z.land x 0x00800000 =? 0) = (x <? 2 ^ 23).
Proof.
intros Hx.
assert (Hland : Z.land x (2 ^ 23) = if Z.testbit x 23 then 2 ^ 23 else 0).
{ apply Z.bits_inj'. intros i Hi. rewrite Z.land_spec, Z.pow2_bits_eqb by lia.
  destruct (Z.eqb_spec 23 i) as [<-|Hne].
  - destruct (Z.testbit x 23) eqn:E; [now rewrite Z.pow2_bits_true by lia|now rewrite Z.bits_0].
  - rewrite andb_false_r. destruct (Z.testbit x 23); [|now rewrite Z.bits_0].
    rewrite Z.pow2_bits_false by lia. reflexivity. }
change 0x00800000 with (2 ^ 23). rewrite Hland.
destruct (Z.testbit x 23) eqn:E.
- apply Z.testbit_true in E; [|lia].
  assert (2 ^ 23 <= x).
  { destruct (Z.lt_ge_cases x (2 ^ 23)) as [Hlt|]; [|assumption].
    rewrite Z.div_small in E by lia. discriminate. }
  change (2 ^ 23 =? 0) with false. symmetry. apply Z.ltb_ge. assumption.
- apply Z.testbit_false in E; [|lia].
  assert (x < 2 ^ 23).
  { destruct (Z.lt_ge_cases x (2 ^ 23)) as [|Hge]; [assumption|].
    assert (x / 2 ^ 23 = 1).
    { symmetry. apply Z.div_unique with (r := x - 2 ^ 23); lia. }
    rewrite H in E. discriminate. }
  change (0 =? 0) with true. symmetry. apply Z.ltb_lt. assumption.
Qed.

Lemma compact_size m e :
0 <= m < 2 ^ 24 -> 0 <= e -> Z.shiftr (Z.lor m (Z.shiftl e 24)) 24 = e.
Proof.
intros Hm He. rewrite Z.shiftr_lor, Z.shiftr_shiftl_l by lia.
rewrite Z.sub_diag, Z.shiftl_0_r, Z.shiftr_div_pow2 by lia.
rewrite Z.div_small by lia. reflexivity.
Qed.

Lemma compact_word m e :
0 <= m < 2 ^ 23 -> 0 <= e -> Z.land (Z.lor m (Z.shiftl e 24)) 0x007fffff = m.
Proof.
intros Hm He. change 0x007fffff with (Z.ones 23).
rewrite Z.land_lor_distr_l, !Z.land_ones by lia.
rewrite Z.shiftl_mul_pow2 by lia.
replace (e * 2 ^ 24) with (e * 2 * 2 ^ 23) by (change (2 ^ 24) with (2 * 2 ^ 23); ring).
rewrite Z.mod_mul by lia. rewrite Z.mod_small by lia. apply Z.lor_0_r.
Qed.

(** Decoding a well-formed compact word: mantissa [m], size [e]. *)
Lemma decode_compose m e :
0 <= m < 2 ^ 23 -> 0 <= e ->
decode (Z.lor m (Z.shiftl e 24)) =
  if e <=? 3 then m / 2 ^ (8 * (3 - e)) else wrap256 (m * 2 ^ (8 * (e - 3))).
Proof.
intros Hm He. unfold decode, SetCompact.
rewrite compact_size, compact_word by lia.
destruct (e <=? 3) eqn:E; cbn [fst].
- apply Z.leb_le in E. apply Z.shiftr_div_pow2. lia.
- apply Z.leb_gt in E. rewrite Z.shiftl_mul_pow2 by lia. reflexivity.
Qed.

Lemma pow8_split a b : 0 <= a -> 0 <= b -> 2 ^ (8 * a) * 2 ^ (8 * b) = 2 ^ (8 * (a + b)).
Proof. intros. rewrite <- Z.pow_add_r by lia. f_equal. lia. Qed.

Lemma GetCompact_form v :
0 < v < 2 ^ 256 ->
exists m e, GetCompact v = Z.lor m (Z.shiftl e 24) /\
  0 < m < 2 ^ 23 /\ 1 <= e <= 33 /\
  (if e <=? 3 then m = v * 2 ^ (8 * (3 - e)) else m = v / 2 ^ (8 * (e - 3))).
Proof.
intros [Hpos Hlt]. destruct (size_bounds v Hpos) as (Hn1 & Hlo & Hhi).
unfold GetCompact. set (nSize := (bits v + 7) / 8) in *.
assert (Hn32 : nSize <= 32).
{ destruct (Z.le_gt_cases nSize 32) as [|Hgt]; [assumption|exfalso].
  assert (2 ^ 256 <= 2 ^ (8 * (nSize - 1))) by (apply Z.pow_le_mono_r; lia). lia. }
destruct (nSize <=? 3) eqn:Esz.
- apply Z.leb_le in Esz.
  assert (Hv24 : v < 2 ^ 24).
  { eapply Z.lt_le_trans; [exact Hhi|]. apply Z.pow_le_mono_r; lia. }
  unfold GetLow64, uint64. rewrite (Z.mod_small v) by lia.
  rewrite Z.shiftl_mul_pow2 by lia.
  set (c0 := v * 2 ^ (8 * (3 - nSize))).
  assert (Hc0 : 2 ^ 16 <= c0 < 2 ^ 24).
  { subst c0. pose proof (pow8_split (nSize - 1) (3 - nSize)) as E1.
    pose proof (pow8_split nSize (3 - nSize)) as E2.
    replace (nSize - 1 + (3 - nSize)) with 2 in E1 by lia.
    replace (nSize + (3 - nSize)) with 3 in E2 by lia.
    assert (0 < 2 ^ (8 * (3 - nSize))) by (apply Z.pow_pos_nonneg; lia).
    change (8 * 2) with 16 in E1. change (8 * 3) with 24 in E2.
    rewrite <- E1 by lia. rewrite <- E2 by lia. split.
    - apply Z.mul_le_mono_nonneg_r; lia.
    - apply Z.mul_lt_mono_pos_r; lia. }
  unfold uint32. rewrite (Z.mod_small c0) by lia.
  rewrite land_sign_bit by lia.
  destruct (c0 <? 2 ^ 23) eqn:Esign; cbn [negb].
  + apply Z.ltb_lt in Esign. exists c0, nSize.
    rewrite (proj2 (Z.leb_le nSize 3)) by lia. repeat split; try lia.
  + apply Z.ltb_ge in Esign. exists (Z.shiftr c0 8), (nSize + 1).
    rewrite Z.shiftr_div_pow2 by lia.
    assert (0 < c0 / 2 ^ 8 < 2 ^ 23).
    { split; [apply Z.div_str_pos; lia|apply Z.div_lt_upper_bound; lia]. }
    repeat split; try lia.
    destruct (nSize + 1 <=? 3) eqn:E3.
    * apply Z.leb_le in E3. subst c0.
      replace (8 * (3 - nSize)) with (8 * (3 - (nSize + 1)) + 8) by lia.
      rewrite Z.pow_add_r by lia. rewrite Z.mul_assoc. apply Z.div_mul. lia.
    * apply Z.leb_gt in E3. assert (nSize = 3) as E by lia. subst c0.
      rewrite E. change (8 * (3 - 3)) with 0. change (8 * (3 + 1 - 3)) with 8.
      rewrite Z.pow_0_r, Z.mul_1_r. reflexivity.
- apply Z.leb_gt in Esz.
  rewrite Z.shiftr_div_pow2 by lia.
  set (s := 8 * (nSize - 3)).
  assert (Hs : 0 < 2 ^ s) by (apply Z.pow_pos_nonneg; lia).
  set (c0 := v / 2 ^ s).
  assert (Hc0 : 2 ^ 16 <= c0 < 2 ^ 24).
  { subst c0 s. pose proof (pow8_split (nSize - 3) 2) as E1.
    pose proof (pow8_split (nSize - 3) 3) as E2.
    replace (nSize - 3 + 2) with (nSize - 1) in E1 by lia.
    replace (nSize - 3 + 3) with nSize in E2 by lia.
    change (8 * 2) with 16 in E1. change (8 * 3) with 24 in E2. split.
    - apply Z.div_le_lower_bound; [lia|]. rewrite E1 by lia. assumption.
    - apply Z.div_lt_upper_bound; [lia|]. rewrite E2 by lia. assumption. }
  unfold GetLow64, uint64, uint32. rewrite !(Z.mod_small c0) by lia.
  rewrite land_sign_bit by lia.
  destruct (c0 <? 2 ^ 23) eqn:Esign; cbn [negb].
  + apply Z.ltb_lt in Esign. exists c0, nSize.
    rewrite (proj2 (Z.leb_gt nSize 3)) by lia. repeat split; lia.
  + apply Z.ltb_ge in Esign. exists (Z.shiftr c0 8), (nSize + 1).
    rewrite Z.shiftr_div_pow2 by lia.
    assert (0 < c0 / 2 ^ 8 < 2 ^ 23).
    { split; [apply Z.div_str_pos; lia|apply Z.div_lt_upper_bound; lia]. }
    rewrite (proj2 (Z.leb_gt (nSize + 1) 3)) by lia. repeat split; try lia.
    subst c0 s. rewrite Z.div_div by lia.
    change 8 with (8 * 1) at 2. rewrite pow8_split by lia. do 2 f_equal. lia.
Qed.

Lemma decode_GetCompact_bounds v :
0 < v < 2 ^ 256 -> 0 < decode (GetCompact v) <= v.
Proof.
intros Hv. destruct (GetCompact_form v Hv) as (m & e & -> & Hm & He & Hme).
rewrite decode_compose by lia.
destruct (e <=? 3) eqn:E.
- subst m. rewrite Z.div_mul; [lia|]. apply Z.pow_nonzero; lia.
- apply Z.leb_gt in E. subst m. set (s := 8 * (e - 3)) in *.
  assert (Hs : 0 < 2 ^ s) by (apply Z.pow_pos_nonneg; lia).
  pose proof (Z.mul_div_le v (2 ^ s) Hs).
  assert (0 < v / 2 ^ s * 2 ^ s) by (apply Z.mul_pos_pos; lia).
  unfold wrap256. rewrite Z.mod_small; lia.
Qed.

Lemma decode_GetCompact_le v : 0 <= v < 2 ^ 256 -> decode (GetCompact v) <= v.
Proof.
intros Hv. destruct (Z.eq_dec v 0) as [->|Hne]; [reflexivity|].
apply decode_GetCompact_bounds. lia.
Qed.

End Codec.

(** ** Proof of work *)

(** C1.  [CheckProofOfWork] accepts exactly when the decoded target is not
    negative, not zero, not overflowing and at most [powLimit], and the hash,
    read as an unsigned 256-bit integer, is at most the target. *)
Theorem CheckProofOfWork_iff (hash : uint256) (nBits : Z)
    (params : Consensus.Params) :
  Pow.CheckProofOfWork hash nBits params = true <->
  let '(bnTarget, fNegative, fOverflow) := Arith256.SetCompact nBits in
  fNegative = false /\ bnTarget <> 0 /\ fOverflow = false /\
  bnTarget <= UintToArith256 (Consensus.powLimit params) /\
  UintToArith256 hash <= bnTarget.
Proof.
  unfold Pow.CheckProofOfWork.
  destruct (Arith256.SetCompact nBits) as [[bnTarget fNegative] fOverflow].
  destruct fNegative; cbn [orb]; [split; [discriminate|intros (E & _); discriminate]|].
  destruct (Z.eqb_spec bnTarget 0) as [E0|E0]; cbn [orb];
    [split; [discriminate|tauto]|].
  destruct fOverflow; cbn [orb];
    [split; [discriminate|intros (_ & _ & E & _); discriminate]|].
  destruct (Z.gtb_spec bnTarget (UintToArith256 (Consensus.powLimit params)));
    [split; [discriminate|lia]|].
  destruct (Z.gtb_spec (UintToArith256 hash) bnTarget);
    [split; [discriminate|lia]|].
  split; [intros _; repeat split; auto; lia|reflexivity].
Qed.

(** ** The difficulty engine *)

(** C2.  The engine returns the encoded [powLimit] in the reset window
    [28930..28999], the LWMA retarget from height 29000 on, and the legacy
    retarget otherwise. *)
Theorem GetNextWorkRequired_dispatch (pindexLast : CBlockIndex.t)
    (pblock : CBlockHeader.t) (params : Consensus.Params) :
  let h := CBlockIndex.nHeight pindexLast in
  let limit := Arith256.GetCompact (UintToArith256 (Consensus.powLimit params)) in
  Pow.GetNextWorkRequired pindexLast pblock params =
    if decide (28930 <= h <= 28999) then Some limit
    else if decide (h + 1 >= 29000)
         then Pow.LwmaCalculateNextWorkRequired pindexLast params
         else Pow.LegacyNextWorkRequired pindexLast pblock params limit (h + 1).
Proof.
  intros h limit. unfold Pow.GetNextWorkRequired. fold h limit.
  destruct (decide (28930 <= h <= 28999)) as [Hw|Hw].
  - rewrite (proj2 (Z.geb_le h 28930)), (proj2 (Z.leb_le h 28999)) by lia.
    reflexivity.
  - assert (E : (h >=? 28930) && (h <=? 28999) = false).
    { apply andb_false_iff. rewrite Z.geb_leb, !Z.leb_gt. lia. }
    rewrite E. destruct (decide (h + 1 >= 29000)) as [Hl|Hl].
    + rewrite (proj2 (Z.geb_le (h + 1) 29000)) by lia. reflexivity.
    + destruct (Z.geb_spec (h + 1) 29000); [lia|reflexivity].
Qed.

(** The engine inside the reset window ignores [fPowNoRetargeting]: at
    height 28950 it returns the encoded [powLimit], not the predecessor's
    bits. *)
Lemma NoRetargeting_reset_window_counterexample :
  let pindexLast := Fixtures.chain 0x1c0ffff0 600 (Z.to_nat 28950) in
  Consensus.fPowNoRetargeting Fixtures.noretarget_consensus = true /\
  CBlockIndex.nBits pindexLast = 0x1c0ffff0 /\
  Pow.GetNextWorkRequired pindexLast CBlockHeader.SetNull
    Fixtures.noretarget_consensus = Some 0x1d00ffff.
Proof. vm_compute. repeat split. Qed.

(** C7, as amended.  With [fPowNoRetargeting] set,
    [CalculateNextWorkRequired] returns [pindexLast->nBits] unchanged for
    every predecessor and first-block time.  [GetNextWorkRequired] returns
    it unchanged on the legacy path (height below 28930) with a non-zero
    adjustment interval, when the next height is a retarget boundary whose
    first block is in the index, or is off the boundary with the
    min-difficulty rule off. *)
Theorem NoRetargeting_keeps_bits (pindexLast : CBlockIndex.t)
    (pblock : CBlockHeader.t) (params : Consensus.Params) :
  Consensus.fPowNoRetargeting params = true ->
  (forall nFirstBlockTime,
     Pow.CalculateNextWorkRequired pindexLast nFirstBlockTime params
     = Some (CBlockIndex.nBits pindexLast)) /\
  (forall interval,
     CBlockIndex.nHeight pindexLast < 28930 ->
     Consensus.DifficultyAdjustmentInterval params
       (CBlockIndex.nHeight pindexLast + 1) = Some interval ->
     interval <> 0 ->
     (Z.rem (CBlockIndex.nHeight pindexLast + 1) interval = 0 ->
      CBlockIndex.GetAncestor pindexLast
        (CBlockIndex.nHeight pindexLast - (interval - 1)) <> None) ->
     (Z.rem (CBlockIndex.nHeight pindexLast + 1) interval <> 0 ->
      Consensus.fPowAllowMinDifficultyBlocks params = false) ->
     Pow.GetNextWorkRequired pindexLast pblock params
     = Some (CBlockIndex.nBits pindexLast)).
Proof.
  intros Hflag.
  assert (Hcalc : forall nFirstBlockTime,
     Pow.CalculateNextWorkRequired pindexLast nFirstBlockTime params
     = Some (CBlockIndex.nBits pindexLast)).
  { intros. unfold Pow.CalculateNextWorkRequired. now rewrite Hflag. }
  split; [exact Hcalc|].
  intros interval Hh Hint Hne Hanc Hmin.
  unfold Pow.GetNextWorkRequired.
  destruct (Z.geb_spec (CBlockIndex.nHeight pindexLast) 28930); [lia|].
  cbn [andb].
  destruct (Z.geb_spec (CBlockIndex.nHeight pindexLast + 1) 29000); [lia|].
  unfold Pow.LegacyNextWorkRequired. rewrite Hint.
  unfold c_rem. rewrite (proj2 (Z.eqb_neq interval 0)) by assumption.
  destruct (Z.eqb_spec (Z.rem (CBlockIndex.nHeight pindexLast + 1) interval) 0)
    as [Hr|Hr]; cbn [negb].
  - specialize (Hanc Hr).
    destruct (CBlockIndex.GetAncestor pindexLast
                (CBlockIndex.nHeight pindexLast - (interval - 1)))
      as [pindexFirst|] eqn:Ea; [|congruence].
    assert (Hge : 0 <= CBlockIndex.nHeight pindexLast - (interval - 1)).
    { unfold CBlockIndex.GetAncestor in Ea.
      destruct (Z.ltb_spec (CBlockIndex.nHeight pindexLast - (interval - 1)) 0);
        [|assumption].
      rewrite orb_true_r in Ea. discriminate. }
    rewrite (proj2 (Z.ltb_ge _ 0)) by assumption. apply Hcalc.
  - rewrite (Hmin Hr). reflexivity.
Qed.

(** On the main network with the flag set: the retarget itself at any
    first-block time, the engine at the boundary height 144 (tip 143) and
    the engine between boundaries (tip 100). *)
Lemma NoRetargeting_keeps_bits_witness :
  (forall nFirstBlockTime,
     Pow.CalculateNextWorkRequired (Fixtures.chain 0x1c0ffff0 600 143)
       nFirstBlockTime Fixtures.noretarget_consensus = Some 0x1c0ffff0) /\
  Pow.GetNextWorkRequired (Fixtures.chain 0x1c0ffff0 600 143)
    CBlockHeader.SetNull Fixtures.noretarget_consensus = Some 0x1c0ffff0 /\
  Pow.GetNextWorkRequired (Fixtures.chain 0x1c0ffff0 600 100)
    CBlockHeader.SetNull Fixtures.noretarget_consensus = Some 0x1c0ffff0.
Proof.
  destruct (NoRetargeting_keeps_bits (Fixtures.chain 0x1c0ffff0 600 143)
              CBlockHeader.SetNull Fixtures.noretarget_consensus eq_refl)
    as [Hcalc Hnext].
  destruct (NoRetargeting_keeps_bits (Fixtures.chain 0x1c0ffff0 600 100)
              CBlockHeader.SetNull Fixtures.noretarget_consensus eq_refl)
    as [_ Hbetween].
  split; [exact Hcalc|]. split.
  - apply (Hnext 144).
    + vm_compute. reflexivity.
    + reflexivity.
    + discriminate.
    + intros _. vm_compute. discriminate.
    + vm_compute. intros Hr. exfalso. apply Hr. reflexivity.
  - apply (Hbetween 144).
    + vm_compute. reflexivity.
    + reflexivity.
    + discriminate.
    + intros Hr. vm_compute in Hr. discriminate Hr.
    + intros _. reflexivity.
Defined.

(** ** The LWMA retarget *)

Lemma linked_height_nonneg p : linked p -> 0 <= CBlockIndex.nHeight p.
Proof. induction 1; cbn [CBlockIndex.nHeight]; lia. Qed.

Lemma walk_linked n : forall p,
  linked p -> Z.of_nat n <= CBlockIndex.nHeight p ->
  exists q, CBlockIndex.walk n p = Some q /\
            CBlockIndex.nHeight q = CBlockIndex.nHeight p - Z.of_nat n /\
            linked q.
Proof.
  induction n as [|n IH]; intros p Hp Hn.
  - exists p. cbn. repeat split; [lia|assumption].
  - destruct Hp as [nTime nBits nStatus|p' nTime nBits nStatus Hp'].
    + cbn [CBlockIndex.nHeight] in Hn. lia.
    + cbn [CBlockIndex.nHeight] in Hn. cbn [CBlockIndex.walk CBlockIndex.pprev].
      destruct (IH p' Hp' ltac:(lia)) as (q & Hq & Hh & Hl).
      exists q. cbn [CBlockIndex.nHeight]. repeat split; [assumption|lia|assumption].
Qed.

Lemma GetAncestor_linked p h :
  linked p -> 0 <= h <= CBlockIndex.nHeight p ->
  exists q, CBlockIndex.GetAncestor p h = Some q /\ CBlockIndex.nHeight q = h.
Proof.
  intros Hp Hh. unfold CBlockIndex.GetAncestor.
  destruct (Z.gtb_spec h (CBlockIndex.nHeight p)); [lia|].
  destruct (Z.ltb_spec h 0); [lia|]. cbn [orb].
  destruct (walk_linked (Z.to_nat (CBlockIndex.nHeight p - h)) p Hp ltac:(lia))
    as (q & Hq & Hhq & _).
  exists q. split; [assumption|lia].
Qed.

Lemma lwma_loop_linked p T count : forall i st,
  linked p -> 0 <= i -> i + Z.of_nat count - 1 <= CBlockIndex.nHeight p ->
  exists st', Pow.lwma_loop p T count i st = Some st'.
Proof.
  induction count as [|count IH]; intros i st Hp Hi Hend.
  - exists st. reflexivity.
  - cbn [Pow.lwma_loop]. unfold Pow.lwma_step.
    destruct (GetAncestor_linked p i Hp ltac:(lia)) as (q & -> & _).
    apply IH; [assumption|lia|lia].
Qed.

(** On a well-formed chain of height at least [N] the whole window is found. *)
Lemma lwma_window_linked p T :
  linked p -> 240 <= CBlockIndex.nHeight p ->
  exists st, Pow.lwma_window p T = Some st.
Proof.
  intros Hp Hh. unfold Pow.lwma_window, Pow.LWMA_N.
  destruct (GetAncestor_linked p (CBlockIndex.nHeight p - 240) Hp ltac:(lia))
    as (q & -> & _).
  apply lwma_loop_linked; [assumption|lia|].
  change (Z.of_nat (Z.to_nat 240)) with 240. lia.
Qed.

Lemma chain_linked nBits spacing height : linked (Fixtures.chain nBits spacing height).
Proof.
  induction height as [|n IH]; cbn [Fixtures.chain]; [constructor|].
  replace (Z.of_nat (S n))
    with (CBlockIndex.nHeight (Fixtures.chain nBits spacing n) + 1).
  - now constructor.
  - destruct n; cbn [Fixtures.chain CBlockIndex.nHeight]; lia.
Qed.

(** With 240 blocks of target 16 in the window the quotient
    [avgTarget * t / (k * T)] is 0, and so is the decoded result. *)
Lemma Lwma_zero_target_counterexample :
  let pindexLast := Fixtures.chain 0x01100000 120 240 in
  CBlockIndex.nHeight pindexLast >= 240 /\
  exists nBits,
    Pow.LwmaCalculateNextWorkRequired pindexLast Fixtures.main_consensus
    = Some nBits /\
    Arith256.decode nBits = 0.
Proof.
  split; [vm_compute; discriminate|].
  exists 0. split; vm_compute; reflexivity.
Qed.

Lemma decode_GetCompact_pos_iff v :
  0 <= v < 2 ^ 256 ->
  (0 < Arith256.decode (Arith256.GetCompact v) <-> 0 < v).
Proof.
  intros Hv. destruct (Z.eq_dec v 0) as [->|Hne].
  - change (Arith256.decode (Arith256.GetCompact 0)) with 0. reflexivity.
  - pose proof (decode_GetCompact_bounds v ltac:(lia)). lia.
Qed.

Lemma lwma_k_value T : Z.quot (Pow.LWMA_N * (Pow.LWMA_N + 1) * T) 2 = 28920 * T.
Proof.
  unfold Pow.LWMA_N. replace (240 * (240 + 1) * T) with (28920 * T * 2) by ring.
  apply Z.quot_mul. discriminate.
Qed.

Lemma mul32_range a b : 0 <= Arith256.mul32 a b < 2 ^ 256.
Proof. unfold Arith256.mul32, Arith256.wrap256. apply Z.mod_pos_bound. lia. Qed.

(** C4, as amended.  From height 240 on, for a [powLimit] of 256 bits and a
    target spacing in range, [LwmaCalculateNextWorkRequired] returns a
    compact value whose decoded target is at most [powLimit]; that target
    is positive exactly when [powLimit] is, and, the window being found,
    [avgTarget * t] (in 256 bits) reaches [k * T]. *)
Theorem Lwma_target_bound (pindexLast : CBlockIndex.t)
    (params : Consensus.Params) :
  let T := Consensus.nPowTargetSpacingV2 params in
  let k := Z.quot (240 * 241 * T) 2 in
  let powLimit := UintToArith256 (Consensus.powLimit params) in
  240 <= CBlockIndex.nHeight pindexLast ->
  Uint256.in_range (Consensus.powLimit params) ->
  lwma_spacing_ok T ->
  exists nBits,
    Pow.LwmaCalculateNextWorkRequired pindexLast params = Some nBits /\
    Arith256.decode nBits <= powLimit /\
    (0 < Arith256.decode nBits <->
     0 < powLimit /\
     forall st, Pow.lwma_window pindexLast T = Some st ->
       k * T <= Arith256.mul32 (Pow.sumTarget st / 240) (Pow.t st)).
Proof.
  intros T k powLimit Hh Hlim [HT HkT].
  assert (Ek : k = 28920 * T) by (apply lwma_k_value).
  unfold Pow.LwmaCalculateNextWorkRequired. fold T powLimit.
  change (Z.quot (Pow.LWMA_N * (Pow.LWMA_N + 1) * T) 2) with k.
  destruct (Z.eqb_spec (CBlockIndex.nHeight pindexLast) 0); [lia|].
  destruct (Z.ltb_spec (CBlockIndex.nHeight pindexLast) Pow.LWMA_N);
    [unfold Pow.LWMA_N in *; lia|].
  unfold Uint256.in_range in Hlim. fold powLimit in Hlim.
  destruct (Pow.lwma_window pindexLast T) as [st|].
  - change (Pow.LWMA_N =? 0) with false. cbn [orb].
    rewrite (proj2 (Z.eqb_neq T 0)), (proj2 (Z.eqb_neq k 0)) by lia.
    cbn [orb]. unfold Pow.lwma_next, Arith256.div64.
    assert (EkT : uint64 (k * T) = k * T).
    { unfold uint64. apply Z.mod_small. nia. }
    rewrite EkT. rewrite (proj2 (Z.eqb_neq (k * T) 0)) by nia.
    change (uint64 Pow.LWMA_N) with 240.
    set (x := Arith256.mul32 (Pow.sumTarget st / 240) (Pow.t st)).
    pose proof (mul32_range (Pow.sumTarget st / 240) (Pow.t st)) as Hx.
    fold x in Hx.
    assert (HkTpos : 0 < k * T) by nia.
    assert (Hnext : 0 <= x / (k * T) < 2 ^ 256).
    { split; [apply Z.div_pos; lia|].
      apply Z.div_lt_upper_bound; [lia|]. nia. }
    assert (Hpos : 0 < x / (k * T) <-> k * T <= x).
    { split; intros Hq.
      - destruct (Z.le_gt_cases (k * T) x) as [|Hlt]; [assumption|].
        rewrite Z.div_small in Hq; lia.
      - apply Z.div_str_pos; lia. }
    eexists; split; [reflexivity|].
    destruct (Z.gtb_spec (x / (k * T)) powLimit) as [Hgt|Hle].
    + pose proof (decode_GetCompact_le powLimit Hlim).
      pose proof (decode_GetCompact_pos_iff powLimit Hlim) as Hiff.
      split; [assumption|]. rewrite Hiff. split.
      * intros Hp. split; [assumption|]. intros st' [= <-]. lia.
      * tauto.
    + pose proof (decode_GetCompact_le (x / (k * T)) Hnext).
      pose proof (decode_GetCompact_pos_iff (x / (k * T)) Hnext) as Hiff.
      split; [lia|]. rewrite Hiff, Hpos. split.
      * intros Hp. split; [lia|]. now intros st' [= <-].
      * intros [_ Hst]. now apply Hst.
  - eexists; split; [reflexivity|].
    pose proof (decode_GetCompact_le powLimit Hlim).
    pose proof (decode_GetCompact_pos_iff powLimit Hlim) as Hiff.
    split; [assumption|]. rewrite Hiff. split; [|tauto].
    intros Hp. split; [assumption|]. intros st' [=].
Qed.

Lemma Lwma_target_bound_witness :
  let pindexLast := Fixtures.chain 0x1b0404cb 120 240 in
  let powLimit := UintToArith256 (Consensus.powLimit Fixtures.main_consensus) in
  exists nBits,
    Pow.LwmaCalculateNextWorkRequired pindexLast Fixtures.main_consensus
    = Some nBits /\
    Arith256.decode nBits <= powLimit /\
    (0 < Arith256.decode nBits <->
     0 < powLimit /\
     forall st, Pow.lwma_window pindexLast 120 = Some st ->
       Z.quot (240 * 241 * 120) 2 * 120
       <= Arith256.mul32 (Pow.sumTarget st / 240) (Pow.t st)).
Proof.
  apply (Lwma_target_bound (Fixtures.chain 0x1b0404cb 120 240)
           Fixtures.main_consensus).
  - vm_compute. discriminate.
  - unfold Uint256.in_range. vm_compute. split; [discriminate|reflexivity].
  - unfold lwma_spacing_ok. vm_compute. split; reflexivity.
Defined.

(** ** Merkle branches and the AuxPoW verifier *)

Lemma byte_eqb_eq a b : byte_eqb a b = true -> a = b.
Proof.
  unfold byte_eqb. intros E. apply Z.eqb_eq in E. now apply byte.unsigned_inj.
Qed.

Lemma starts_with_app needle : forall hay,
  starts_with needle hay = true -> exists rest, hay = needle ++ rest.
Proof.
  induction needle as [|a needle IH]; intros hay E.
  - now exists hay.
  - destruct hay as [|b hay]; [discriminate|]. cbn [starts_with] in E.
    apply andb_true_iff in E as [Eab E]. apply byte_eqb_eq in Eab as ->.
    destruct (IH hay E) as [rest ->]. now exists rest.
Qed.

Lemma std_search_found needle : forall hay,
  std_search hay needle <> length hay ->
  starts_with needle (skipn (std_search hay needle) hay) = true.
Proof.
  induction hay as [|a hay IH]; intros Hne.
  - cbn in Hne. destruct (starts_with needle []); contradiction.
  - cbn [std_search] in *. destruct (starts_with needle (a :: hay)) eqn:E.
    + exact E.
    + cbn [length] in Hne. cbn [skipn]. apply IH. congruence.
Qed.

Lemma reverse_of_bytes (l : list byte) :
  length l = 32%nat ->
  Uint256.reverse (Uint256.of_bytes l) = Uint256.of_bytes (rev l).
Proof.
  intros Hl. unfold Uint256.reverse, Uint256.to_bytes, Uint256.of_bytes.
  rewrite <- Hl, split_le_combine. reflexivity.
Qed.

(** Clearing the AuxPoW bit gives a header that no longer reads as AuxPoW. *)
Lemma clear_auxpow_bit_not_auxpow h :
  CBlockHeader.IsAuxpow (CBlockHeader.clear_auxpow_bit h) = false.
Proof.
  unfold CBlockHeader.IsAuxpow, CBlockHeader.clear_auxpow_bit.
  cbn [CBlockHeader.nVersion].
  rewrite <- Z.land_assoc, (Z.land_comm (Z.lnot _)), Z.land_lnot_diag, Z.land_0_r.
  reflexivity.
Qed.

Section AuxPowFacts.
Context {hashing : Hashing}.

(** C10.  With an empty branch the computed Merkle root is the leaf, for
    every index, so the branch check against a known root is equality of
    the leaf with that root. *)
Theorem ComputeMerkleRootFromBranch_empty (h root : uint256) (nIndex : Z) :
  ComputeMerkleRootFromBranch h [] nIndex = h /\
  (CheckMerkleBranch h [] nIndex = root <-> h = root).
Proof. split; [reflexivity|]. unfold CheckMerkleBranch. cbn. tauto. Qed.

(** What [check_commitment] has established when it lets a script pass. *)
Lemma check_commitment_passed block ap script scanned :
  check_commitment block ap script scanned = Passed ->
  exists pre commit post,
    script = pre ++ pchAuxPowHeader ++ commit ++ post /\
    length pre = std_search script pchAuxPowHeader /\
    length commit = 32%nat /\
    Uint256.of_bytes (rev commit)
    = GetHash (CBlockHeader.clear_auxpow_bit (CBlock.GetBlockHeader block)) /\
    GetParentBlockHash ap ∉ scanned.
Proof.
  unfold check_commitment. set (pc := std_search script pchAuxPowHeader).
  destruct (Nat.eqb_spec pc (length script)) as [|Hpc]; [discriminate|].
  set (vch := skipn (pc + length pchAuxPowHeader) script).
  destruct (Nat.ltb_spec (length vch) 32) as [|Hlen]; [discriminate|].
  destruct (Z.eqb_spec (Uint256.reverse (Uint256.of_bytes (firstn 32 vch)))
              (GetHash (CBlockHeader.clear_auxpow_bit
                          (CBlock.GetBlockHeader block)))) as [Ehash|];
    [|discriminate].
  cbn [negb]. case_bool_decide as Hdup; [discriminate|]. intros _.
  destruct (starts_with_app _ _ (std_search_found pchAuxPowHeader script Hpc))
    as [rest Hrest]. fold pc in Hrest.
  assert (Evch : vch = rest).
  { subst vch. rewrite Nat.add_comm, <- skipn_skipn, Hrest.
    rewrite skipn_app, Nat.sub_diag, skipn_all. reflexivity. }
  assert (Hcommit : length (firstn 32 vch) = 32%nat)
    by (rewrite length_firstn; lia).
  exists (firstn pc script), (firstn 32 vch), (skipn 32 vch).
  repeat split.
  - rewrite firstn_skipn, Evch, <- Hrest. symmetry. apply firstn_skipn.
  - rewrite length_firstn. assert (pc <= length script)%nat; [|lia].
    destruct (Nat.le_gt_cases pc (length script)) as [|Hgt]; [assumption|].
    rewrite skipn_all2 in Hrest by lia. discriminate.
  - assumption.
  - rewrite <- reverse_of_bytes by assumption. exact Ehash.
  - assumption.
Qed.

(** C3.  For a block with the AuxPoW flag set and the proof present, the
    verifier succeeds only if the first input of the parent coinbase has a
    script holding the magic bytes [70 6c 6d 01] followed by at least 32
    bytes, and the 32 bytes after the first occurrence of the magic,
    byte-reversed, are the hash of the block's header with the AuxPoW
    version bit cleared. *)
Theorem AuxPow_commitment (block : CBlock.t) (params : Consensus.Params)
    (scanned : gset uint256) (ap : CAuxPow.t) :
  CBlock.IsAuxpow block = true ->
  CBlock.m_auxpow block = Some ap ->
  fst (CheckAuxPowProofOfWork block params scanned) = Some Passed ->
  exists coinbaseTx vin0 vin_rest pre commit post,
    CAuxPow.coinbaseTx ap = Some coinbaseTx /\
    vin coinbaseTx = vin0 :: vin_rest /\
    scriptSig vin0 = pre ++ [Byte.x70; Byte.x6c; Byte.x6d; Byte.x01]
                         ++ commit ++ post /\
    length pre = std_search (scriptSig vin0) pchAuxPowHeader /\
    length commit = 32%nat /\
    Uint256.of_bytes (rev commit)
    = GetHash (CBlockHeader.clear_auxpow_bit (CBlock.GetBlockHeader block)).
Proof.
  intros Hflag Hap. unfold CheckAuxPowProofOfWork. rewrite Hflag, Hap.
  cbn [negb].
  destruct (Pow.CheckProofOfWork _ _ _); cbn [negb fst]; [|discriminate].
  destruct (CAuxPow.coinbaseTx ap) as [coinbaseTx|]; [|discriminate].
  destruct (negb _); [discriminate|].
  destruct (vin coinbaseTx) as [|vin0 vin_rest] eqn:Evin; [discriminate|].
  cbn [fst]. intros [= Hpass].
  destruct (check_commitment_passed _ _ _ _ Hpass)
    as (pre & commit & post & Hs & Hpre & Hlen & Hhash & _).
  exists coinbaseTx, vin0, vin_rest, pre, commit, post.
  repeat split; solve [reflexivity | assumption | exact Hs].
Qed.

(** C6, as amended.  The call leaves the duplicate-parent set as it found
    it; with the parent hash already in the set it never succeeds; and a
    proof that would pass against the empty set fails with the
    duplicate-parent error. *)
Theorem AuxPow_duplicate_parent (block : CBlock.t)
    (params : Consensus.Params) (scanned : gset uint256) :
  snd (CheckAuxPowProofOfWork block params scanned) = scanned /\
  forall ap, CBlock.m_auxpow block = Some ap ->
    GetParentBlockHash ap ∈ scanned ->
    fst (CheckAuxPowProofOfWork block params scanned) <> Some Passed /\
    (fst (CheckAuxPowProofOfWork block params ∅) = Some Passed ->
     fst (CheckAuxPowProofOfWork block params scanned)
     = Some (Failed ErrDuplicateParent)).
Proof.
  split.
  - unfold CheckAuxPowProofOfWork.
    repeat match goal with
           | |- context [if ?b then _ else _] => destruct b
           | |- context [match ?o with Some _ => _ | None => _ end] =>
               destruct o
           | |- context [match ?l with [] => _ | _ :: _ => _ end] =>
               destruct l
           end; reflexivity.
  - intros ap Hap Hin. unfold CheckAuxPowProofOfWork. rewrite Hap.
    destruct (negb (CBlock.IsAuxpow block)); [split; discriminate|].
    destruct (negb (Pow.CheckProofOfWork _ _ _)); [split; discriminate|].
    destruct (CAuxPow.coinbaseTx ap) as [coinbaseTx|]; [|split; discriminate].
    destruct (negb _); [split; discriminate|].
    destruct (vin coinbaseTx) as [|vin0 vin_rest]; [split; discriminate|].
    cbn [fst]. split.
    + intros [= Hpass].
      destruct (check_commitment_passed _ _ _ _ Hpass)
        as (pre & commit & post & _ & _ & _ & _ & Hnot).
      contradiction.
    + unfold check_commitment.
      destruct (_ =? _)%nat; [discriminate|].
      destruct (_ <? _)%nat; [discriminate|].
      destruct (negb _); [discriminate|].
      intros _. now rewrite bool_decide_eq_true_2.
Qed.
End AuxPowFacts.

Lemma AuxPow_commitment_witness :
  let block := Fixtures.aux_block 0x1d00ffff (Fixtures.good_commit 0x1d00ffff) in
  exists coinbaseTx vin0 vin_rest pre commit post,
    CAuxPow.coinbaseTx (Fixtures.aux_proof (Fixtures.good_commit 0x1d00ffff))
    = Some coinbaseTx /\
    vin coinbaseTx = vin0 :: vin_rest /\
    scriptSig vin0 = pre ++ [Byte.x70; Byte.x6c; Byte.x6d; Byte.x01]
                         ++ commit ++ post /\
    length pre = std_search (scriptSig vin0) pchAuxPowHeader /\
    length commit = 32%nat /\
    Uint256.of_bytes (rev commit)
    = @GetHash Fixtures.sum_hashing
        (CBlockHeader.clear_auxpow_bit (CBlock.GetBlockHeader block)).
Proof.
  apply (@AuxPow_commitment Fixtures.sum_hashing
           (Fixtures.aux_block 0x1d00ffff (Fixtures.good_commit 0x1d00ffff))
           Fixtures.auxpow_consensus ∅
           (Fixtures.aux_proof (Fixtures.good_commit 0x1d00ffff)));
    vm_compute; reflexivity.
Defined.

(** A proof whose parent hash is in the set but whose parent header misses
    the target (the block's [nBits] is 0) fails with the proof-of-work
    error, not with the duplicate-parent error. *)
Lemma AuxPow_duplicate_not_first_counterexample :
  let block := Fixtures.aux_block 0 (Fixtures.good_commit 0) in
  let scanned : gset uint256 :=
    {[ @GetParentBlockHash Fixtures.sum_hashing
         (Fixtures.aux_proof (Fixtures.good_commit 0)) ]} in
  @GetParentBlockHash Fixtures.sum_hashing
    (Fixtures.aux_proof (Fixtures.good_commit 0)) ∈ scanned /\
  fst (@CheckAuxPowProofOfWork Fixtures.sum_hashing block
         Fixtures.auxpow_consensus scanned)
  = Some (Failed ErrParentPow).
Proof. split; [set_solver|vm_compute; reflexivity]. Qed.

(** ** Block submission *)

Section SubmitFacts.
Context {hashing : Hashing} {node : Mining.Node}.

(** C5.  With the predecessor in the block index, so that the would-be
    height [H] is its height plus one: below [nAuxpowStartHeight] a block
    with the AuxPoW flag is answered [rejected: bad-auxpow-unexpected]; at
    or above it a block without the flag is answered
    [rejected: bad-auxpow-version-missing] and a block with the flag but no
    proof [rejected: bad-auxpow-data-missing]; every other block passes the
    gate and goes on to the checks that follow it. *)
Theorem submitblock_auxpow_gate (block : CBlock.t)
    (mapBlockIndex : gmap uint256 CBlockIndex.t)
    (params : Consensus.Params) (pindexPrev : CBlockIndex.t) :
  mapBlockIndex !! CBlockHeader.hashPrevBlock (CBlock.header block)
  = Some pindexPrev ->
  let H := CBlockIndex.nHeight pindexPrev + 1 in
  Mining.submitblock (Some block) mapBlockIndex params =
    if decide (H < Consensus.nAuxpowStartHeight params) then
      if CBlock.IsAuxpow block
      then Mining.Return (Mining.VSTR "rejected: bad-auxpow-unexpected")
      else Mining.submitblock_process block mapBlockIndex
    else
      if negb (CBlock.IsAuxpow block)
      then Mining.Return (Mining.VSTR "rejected: bad-auxpow-version-missing")
      else if negb (CBlock.has_auxpow block)
      then Mining.Return (Mining.VSTR "rejected: bad-auxpow-data-missing")
      else Mining.submitblock_process block mapBlockIndex.
Proof.
  intros Hprev H. unfold Mining.submitblock, Mining.submitblock_height,
    Mining.LookupBlockIndex. rewrite Hprev. fold H.
  destruct (decide (H < Consensus.nAuxpowStartHeight params)) as [Hlt|Hge].
  - destruct (Z.geb_spec H (Consensus.nAuxpowStartHeight params)); [lia|].
    cbn [andb negb]. destruct (CBlock.IsAuxpow block); reflexivity.
  - destruct (Z.geb_spec H (Consensus.nAuxpowStartHeight params)); [|lia].
    cbn [andb negb].
    destruct (CBlock.IsAuxpow block), (CBlock.has_auxpow block); reflexivity.
Qed.

(** C9, as amended.  A block whose predecessor is not in the block index,
    and which is not the genesis block, makes [submitblock] throw the RPC
    verify error "Block rejected: previous block not known". *)
Theorem submitblock_unknown_prev (block : CBlock.t)
    (mapBlockIndex : gmap uint256 CBlockIndex.t)
    (params : Consensus.Params) :
  mapBlockIndex !! CBlockHeader.hashPrevBlock (CBlock.header block) = None ->
  GetHash (CBlock.header block) <> Consensus.hashGenesisBlock params ->
  Mining.submitblock (Some block) mapBlockIndex params
  = Mining.Throw Mining.RPC_VERIFY_ERROR
      "Block rejected: previous block not known".
Proof.
  intros Hprev Hgen. unfold Mining.submitblock, Mining.submitblock_height,
    Mining.LookupBlockIndex. rewrite Hprev.
  destruct (Z.eqb_spec (GetHash (CBlock.header block))
              (Consensus.hashGenesisBlock params)); [contradiction|].
  reflexivity.
Qed.

(** The only reply of that shape is the one for the genesis block once it
    is past the gate with a coinbase and an unknown hash: the string then
    has spaces around its dash. *)
Lemma submitblock_process_unknown_prev (block : CBlock.t)
    (mapBlockIndex : gmap uint256 CBlockIndex.t) (tx0 : CTransaction)
    (txs : list CTransaction) :
  CBlock.vtx block = tx0 :: txs ->
  Mining.IsCoinBase tx0 = true ->
  mapBlockIndex !! GetHash (CBlock.header block) = None ->
  mapBlockIndex !! CBlockHeader.hashPrevBlock (CBlock.header block) = None ->
  Mining.submitblock_process block mapBlockIndex
  = Mining.Return (Mining.VSTR "inconclusive - not-best-prevblk").
Proof.
  intros Hvtx Hcb Hhash Hprev. unfold Mining.submitblock_process,
    Mining.LookupBlockIndex. rewrite Hvtx, Hcb, Hhash, Hprev. reflexivity.
Qed.
End SubmitFacts.

Lemma submitblock_auxpow_gate_witness :
  let block := Fixtures.aux_block 0x1d00ffff (Fixtures.good_commit 0x1d00ffff) in
  Mining.submitblock (hashing := Fixtures.sum_hashing)
    (node := Fixtures.open_node) (Some block) Fixtures.small_index
    Fixtures.auxpow_consensus
  = Mining.Return (Mining.VSTR "rejected: bad-auxpow-unexpected").
Proof.
  intros block.
  assert (Hprev : Fixtures.small_index
                  !! CBlockHeader.hashPrevBlock (CBlock.header block)
                  = Some (Fixtures.chain 0x1d00ffff 120 5))
    by (vm_compute; reflexivity).
  rewrite (@submitblock_auxpow_gate Fixtures.sum_hashing Fixtures.open_node
             block Fixtures.small_index Fixtures.auxpow_consensus _ Hprev).
  vm_compute. reflexivity.
Defined.

(** Submitted against an empty block index, a block that is not the genesis
    block is answered by a thrown error, not by the reply string. *)
Lemma submitblock_unknown_prev_counterexample :
  let block := Fixtures.aux_block 0x1d00ffff (Fixtures.good_commit 0x1d00ffff) in
  let reply :=
    Mining.submitblock (hashing := Fixtures.sum_hashing)
      (node := Fixtures.open_node) (Some block) ∅ Fixtures.main_consensus in
  (∅ : gmap uint256 CBlockIndex.t)
    !! CBlockHeader.hashPrevBlock (CBlock.header block) = None /\
  @GetHash Fixtures.sum_hashing (CBlock.header block)
  <> Consensus.hashGenesisBlock Fixtures.main_consensus /\
  reply = Mining.Throw Mining.RPC_VERIFY_ERROR
            "Block rejected: previous block not known" /\
  reply <> Mining.Return (Mining.VSTR "inconclusive-not-best-prevblk").
Proof.
  repeat split; try (vm_compute; reflexivity); vm_compute; discriminate.
Qed.

Lemma submitblock_unknown_prev_witness :
  let block := Fixtures.aux_block 0x1d00ffff (Fixtures.good_commit 0x1d00ffff) in
  Mining.submitblock (hashing := Fixtures.sum_hashing)
    (node := Fixtures.open_node) (Some block) ∅ Fixtures.main_consensus
  = Mining.Throw Mining.RPC_VERIFY_ERROR
      "Block rejected: previous block not known".
Proof.
  apply (@submitblock_unknown_prev Fixtures.sum_hashing Fixtures.open_node).
  - reflexivity.
  - vm_compute. discriminate.
Defined.

(** * Further properties of the code *)

(** ** Proof of work: order properties *)

(** What an accepting run of [CheckProofOfWork] went through. *)
Lemma CheckProofOfWork_true_inv hash nBits params :
  Pow.CheckProofOfWork hash nBits params = true ->
  exists bnTarget,
    Arith256.SetCompact nBits = (bnTarget, false, false) /\
    bnTarget <> 0 /\
    bnTarget <= UintToArith256 (Consensus.powLimit params) /\
    UintToArith256 hash <= bnTarget.
Proof.
  unfold Pow.CheckProofOfWork.
  destruct (Arith256.SetCompact nBits) as [[bnTarget fNegative] fOverflow].
  destruct fNegative; cbn [orb]; [discriminate|].
  destruct (Z.eqb_spec bnTarget 0); cbn [orb]; [discriminate|].
  destruct fOverflow; cbn [orb]; [discriminate|].
  destruct (Z.gtb_spec bnTarget (UintToArith256 (Consensus.powLimit params)));
    [discriminate|].
  destruct (Z.gtb_spec (UintToArith256 hash) bnTarget); [discriminate|].
  intros _. exists bnTarget. repeat split; assumption.
Qed.

Lemma CheckProofOfWork_true_intro hash nBits params bnTarget :
  Arith256.SetCompact nBits = (bnTarget, false, false) ->
  bnTarget <> 0 ->
  bnTarget <= UintToArith256 (Consensus.powLimit params) ->
  UintToArith256 hash <= bnTarget ->
  Pow.CheckProofOfWork hash nBits params = true.
Proof.
  intros E Hnz Hlim Hhash. unfold Pow.CheckProofOfWork. rewrite E. cbn [orb].
  rewrite (proj2 (Z.eqb_neq bnTarget 0)) by assumption. cbn [orb].
  destruct (Z.gtb_spec bnTarget (UintToArith256 (Consensus.powLimit params)));
    [lia|].
  destruct (Z.gtb_spec (UintToArith256 hash) bnTarget); [lia|reflexivity].
Qed.

(** X1.  A hash that meets a compact target is at most [powLimit], and every
    smaller hash meets the same target. *)
Theorem CheckProofOfWork_hash_monotone (hash hash' : uint256) (nBits : Z)
    (params : Consensus.Params) :
  Pow.CheckProofOfWork hash nBits params = true ->
  UintToArith256 hash' <= UintToArith256 hash ->
  Pow.CheckProofOfWork hash' nBits params = true /\
  UintToArith256 hash <= UintToArith256 (Consensus.powLimit params).
Proof.
  intros Hok Hle.
  destruct (CheckProofOfWork_true_inv _ _ _ Hok) as (bn & E & Hnz & Hlim & Hh).
  split; [|lia].
  apply (CheckProofOfWork_true_intro _ _ _ bn); try assumption. lia.
Qed.

Lemma CheckProofOfWork_hash_monotone_witness :
  Pow.CheckProofOfWork 5 0x1d00ffff Fixtures.main_consensus = true /\
  UintToArith256 7
  <= UintToArith256 (Consensus.powLimit Fixtures.main_consensus).
Proof.
  apply (CheckProofOfWork_hash_monotone 7 5 0x1d00ffff Fixtures.main_consensus).
  - vm_compute. reflexivity.
  - vm_compute. discriminate.
Defined.

(** X2.  A hash that meets a compact target also meets every acceptable
    compact target that decodes to at least as much. *)
Theorem CheckProofOfWork_target_monotone (hash hash0 : uint256)
    (nBits nBits' : Z) (params : Consensus.Params) :
  Pow.CheckProofOfWork hash nBits params = true ->
  Pow.CheckProofOfWork hash0 nBits' params = true ->
  Arith256.decode nBits <= Arith256.decode nBits' ->
  Pow.CheckProofOfWork hash nBits' params = true.
Proof.
  intros Hok Hok' Hle.
  destruct (CheckProofOfWork_true_inv _ _ _ Hok) as (bn & E & _ & _ & Hh).
  destruct (CheckProofOfWork_true_inv _ _ _ Hok') as (bn' & E' & Hnz & Hlim & _).
  unfold Arith256.decode in Hle. rewrite E, E' in Hle. cbn [fst] in Hle.
  apply (CheckProofOfWork_true_intro _ _ _ bn'); try assumption. lia.
Qed.

Lemma CheckProofOfWork_target_monotone_witness :
  Pow.CheckProofOfWork (2 ^ 200) 0x1d00ffff Fixtures.main_consensus = true.
Proof.
  apply (CheckProofOfWork_target_monotone (2 ^ 200) 0 0x1c0ffff0 0x1d00ffff
           Fixtures.main_consensus).
  - vm_compute. reflexivity.
  - vm_compute. reflexivity.
  - vm_compute. discriminate.
Defined.

(** ** The LWMA window *)

Lemma decode_range nCompact : 0 <= Arith256.decode nCompact < 2 ^ 256.
Proof.
  unfold Arith256.decode, Arith256.SetCompact.
  assert (Hw : 0 <= Z.land nCompact 0x007fffff < 2 ^ 23).
  { change 0x007fffff with (Z.ones 23). rewrite Z.land_ones by lia.
    apply Z.mod_pos_bound. lia. }
  destruct (Z.shiftr nCompact 24 <=? 3) eqn:E; cbn [fst].
  - apply Z.leb_le in E. rewrite Z.shiftr_div_pow2 by lia.
    assert (0 < 2 ^ (8 * (3 - Z.shiftr nCompact 24)))
      by (apply Z.pow_pos_nonneg; lia).
    split; [apply Z.div_pos; lia|].
    apply Z.le_lt_trans with (Z.land nCompact 0x007fffff); [|lia].
    apply Z.div_le_upper_bound; [lia|]. nia.
  - unfold Arith256.wrap256. apply Z.mod_pos_bound. lia.
Qed.

Lemma lwma_step_inv p T i st st' :
  0 < T -> 0 <= Pow.j st ->
  Pow.lwma_step p T i st = Some st' ->
  Pow.j st' = Pow.j st + 1 /\
  Pow.t st + (Pow.j st + 1) <= Pow.t st' /\
  Pow.t st' <= Pow.t st + 6 * T * (Pow.j st + 1) /\
  Pow.previousTimestamp st <= Pow.previousTimestamp st' /\
  0 <= Pow.sumTarget st' < 2 ^ 256.
Proof.
  intros HT Hj. unfold Pow.lwma_step.
  destruct (CBlockIndex.GetAncestor p i) as [blockCurrent|]; [|discriminate].
  intros [= <-]. cbn [Pow.j Pow.t Pow.previousTimestamp Pow.sumTarget].
  set (this := CBlockIndex.GetBlockTime blockCurrent).
  set (prev := Pow.previousTimestamp st).
  assert (Hthis : prev <= (if this <? prev then prev else this))
    by (destruct (Z.ltb_spec this prev); lia).
  set (this' := if this <? prev then prev else this) in *.
  set (s := Z.min (6 * T) (Z.max 1 (this' - prev))).
  assert (Hs : 1 <= s <= 6 * T) by (subst s; lia).
  repeat split; try lia; try nia.
  - unfold Arith256.add, Arith256.wrap256. apply Z.mod_pos_bound. lia.
  - unfold Arith256.add, Arith256.wrap256. apply Z.mod_pos_bound. lia.
Qed.

Lemma lwma_loop_inv p T count : forall i st st',
  0 < T -> 0 <= Pow.j st -> 0 <= Pow.sumTarget st < 2 ^ 256 ->
  Pow.lwma_loop p T count i st = Some st' ->
  let c := Z.of_nat count in
  Pow.j st' = Pow.j st + c /\
  2 * Pow.t st + (2 * c * Pow.j st + c * (c + 1)) <= 2 * Pow.t st' /\
  2 * Pow.t st' <= 2 * Pow.t st + 6 * T * (2 * c * Pow.j st + c * (c + 1)) /\
  Pow.previousTimestamp st <= Pow.previousTimestamp st' /\
  0 <= Pow.sumTarget st' < 2 ^ 256.
Proof.
  induction count as [|count IH]; intros i st st' HT Hj Hsum Hloop c.
  - cbn in Hloop. injection Hloop as <-. subst c. cbn. lia.
  - cbn [Pow.lwma_loop] in Hloop.
    destruct (Pow.lwma_step p T i st) as [st1|] eqn:Estep; [|discriminate].
    destruct (lwma_step_inv _ _ _ _ _ HT Hj Estep)
      as (Hj1 & Hlo1 & Hhi1 & Hp1 & Hs1).
    assert (Hj1' : 0 <= Pow.j st1) by lia.
    destruct (IH _ _ _ HT Hj1' Hs1 Hloop) as (Hj2 & Hlo2 & Hhi2 & Hp2 & Hs2).
    subst c. rewrite Nat2Z.inj_succ. set (c := Z.of_nat count) in *.
    assert (0 <= c) by (subst c; lia).
    rewrite Hj1 in *. repeat split; lia.
Qed.

(** The bounds that the loop of the LWMA window keeps. *)
Lemma lwma_window_bounds (pindexLast : CBlockIndex.t) (T : Z)
    (st : Pow.lwma_state) :
  0 < T ->
  Pow.lwma_window pindexLast T = Some st ->
  Pow.j st = 240 /\
  28920 <= Pow.t st <= 6 * T * 28920 /\
  0 <= Pow.sumTarget st < 2 ^ 256 /\
  exists blockStart,
    CBlockIndex.GetAncestor pindexLast (CBlockIndex.nHeight pindexLast - 240)
    = Some blockStart /\
    CBlockIndex.GetBlockTime blockStart <= Pow.previousTimestamp st.
Proof.
  intros HT. unfold Pow.lwma_window, Pow.LWMA_N.
  destruct (CBlockIndex.GetAncestor pindexLast
              (CBlockIndex.nHeight pindexLast - 240)) as [blockStart|];
    [|discriminate].
  intros Hloop.
  apply lwma_loop_inv in Hloop; cbn [Pow.j Pow.t Pow.sumTarget]; try lia.
  cbn [Pow.j Pow.t Pow.sumTarget Pow.previousTimestamp] in Hloop.
  change (Z.of_nat (Z.to_nat 240)) with 240 in Hloop.
  destruct Hloop as (Hj & Hlo & Hhi & Hp & Hs).
  repeat split; try lia. exists blockStart. split; [reflexivity|lia].
Qed.

(** X3.  When the LWMA window is found (and [T] is positive), the loop has
    made exactly 240 passes, its weighted solve-time sum lies between
    [N(N+1)/2 = 28920] and [6 T N(N+1)/2], the running timestamp has not
    gone below the window's start time, and the target sum is a 256-bit
    value. *)
Theorem lwma_window_invariant (pindexLast : CBlockIndex.t) (T : Z)
    (st : Pow.lwma_state) :
  0 < T ->
  Pow.lwma_window pindexLast T = Some st ->
  Pow.j st = 240 /\
  28920 <= Pow.t st <= 6 * T * 28920 /\
  0 <= Pow.sumTarget st < 2 ^ 256 /\
  exists blockStart,
    CBlockIndex.GetAncestor pindexLast (CBlockIndex.nHeight pindexLast - 240)
    = Some blockStart /\
    CBlockIndex.GetBlockTime blockStart <= Pow.previousTimestamp st.
Proof. exact (lwma_window_bounds pindexLast T st). Qed.

Lemma lwma_window_invariant_witness :
  exists st,
    Pow.lwma_window (Fixtures.chain 0x1b0404cb 120 240) 120 = Some st /\
    Pow.j st = 240 /\ 28920 <= Pow.t st <= 6 * 120 * 28920.
Proof.
  destruct (lwma_window_linked (Fixtures.chain 0x1b0404cb 120 240) 120
              (chain_linked _ _ _) ltac:(vm_compute; discriminate))
    as [st Hst].
  exists st. split; [exact Hst|].
  destruct (lwma_window_invariant _ 120 st ltac:(lia) Hst) as (Hj & Ht & _).
  split; assumption.
Defined.

Lemma mul32_le a b : 0 <= a -> 0 <= b -> Arith256.mul32 a b <= a * b.
Proof.
  intros Ha Hb. unfold Arith256.mul32, Arith256.wrap256, uint32.
  assert (0 <= b mod 2 ^ 32 <= b).
  { split; [apply Z.mod_pos_bound; lia|apply Z.mod_le; lia]. }
  eapply Z.le_trans; [apply Z.mod_le; nia|]. nia.
Qed.

(** X4.  From height 240 on, with a 256-bit [powLimit] and a spacing in
    range, the target that [LwmaCalculateNextWorkRequired] returns, times
    [T], is at most six times the window's average target: the next target
    is never above [6/T] of the average, whatever the solve times. *)
Theorem Lwma_target_growth (pindexLast : CBlockIndex.t)
    (params : Consensus.Params) :
  let T := Consensus.nPowTargetSpacingV2 params in
  240 <= CBlockIndex.nHeight pindexLast ->
  Uint256.in_range (Consensus.powLimit params) ->
  lwma_spacing_ok T ->
  exists nBits,
    Pow.LwmaCalculateNextWorkRequired pindexLast params = Some nBits /\
    forall st, Pow.lwma_window pindexLast T = Some st ->
      Arith256.decode nBits * T <= 6 * (Pow.sumTarget st / 240).
Proof.
  intros T Hh Hlim [HT HkT].
  pose proof (lwma_k_value T) as Ek.
  unfold Pow.LwmaCalculateNextWorkRequired. fold T.
  set (k := Z.quot (Pow.LWMA_N * (Pow.LWMA_N + 1) * T) 2) in *.
  set (powLimit := UintToArith256 (Consensus.powLimit params)).
  destruct (Z.eqb_spec (CBlockIndex.nHeight pindexLast) 0); [lia|].
  destruct (Z.ltb_spec (CBlockIndex.nHeight pindexLast) Pow.LWMA_N);
    [unfold Pow.LWMA_N in *; lia|].
  unfold Uint256.in_range in Hlim. fold powLimit in Hlim.
  destruct (Pow.lwma_window pindexLast T) as [st|] eqn:Ew.
  - change (Pow.LWMA_N =? 0) with false. cbn [orb].
    rewrite (proj2 (Z.eqb_neq T 0)), (proj2 (Z.eqb_neq k 0)) by lia.
    cbn [orb]. unfold Pow.lwma_next, Arith256.div64.
    assert (EkT : uint64 (k * T) = k * T).
    { unfold uint64. apply Z.mod_small. nia. }
    rewrite EkT. rewrite (proj2 (Z.eqb_neq (k * T) 0)) by nia.
    change (uint64 Pow.LWMA_N) with 240.
    destruct (lwma_window_bounds _ _ _ HT Ew) as (_ & Ht & Hsum & _).
    set (avg := Pow.sumTarget st / 240).
    assert (Havg : 0 <= avg) by (apply Z.div_pos; lia).
    set (x := Arith256.mul32 avg (Pow.t st)).
    pose proof (mul32_range avg (Pow.t st)) as Hx. fold x in Hx.
    pose proof (mul32_le avg (Pow.t st) Havg ltac:(lia)) as Hxle. fold x in Hxle.
    assert (HkTpos : 0 < k * T) by nia.
    assert (Hq : 0 <= x / (k * T) < 2 ^ 256).
    { split; [apply Z.div_pos; lia|].
      apply Z.div_lt_upper_bound; [lia|]. nia. }
    assert (HqT : x / (k * T) * T <= 6 * avg).
    { pose proof (Z.mul_div_le x (k * T) HkTpos) as Hm.
      assert (x <= 6 * avg * k) by nia. nia. }
    eexists; split; [reflexivity|]. intros st' [= <-]. fold avg.
    destruct (Z.gtb_spec (x / (k * T)) powLimit) as [Hgt|Hle].
    + pose proof (decode_GetCompact_le powLimit Hlim). nia.
    + pose proof (decode_GetCompact_le (x / (k * T)) Hq). nia.
  - eexists; split; [reflexivity|]. intros st' [=].
Qed.

Lemma Lwma_target_growth_witness :
  exists nBits,
    Pow.LwmaCalculateNextWorkRequired (Fixtures.chain 0x1b0404cb 120 240)
      Fixtures.main_consensus = Some nBits /\
    forall st,
      Pow.lwma_window (Fixtures.chain 0x1b0404cb 120 240) 120 = Some st ->
      Arith256.decode nBits * 120 <= 6 * (Pow.sumTarget st / 240).
Proof.
  apply (Lwma_target_growth (Fixtures.chain 0x1b0404cb 120 240)
           Fixtures.main_consensus).
  - vm_compute. discriminate.
  - unfold Uint256.in_range. vm_compute. split; [discriminate|reflexivity].
  - unfold lwma_spacing_ok. vm_compute. split; reflexivity.
Defined.

(** X5.  With [nPowTargetSpacingV2 = 0], as on testnet and regtest, the
    engine returns the encoded [powLimit] for every predecessor from height
    28930 on: the reset window gives it, and past the window the LWMA
    retarget falls back to it whatever the chain holds. *)
Theorem GetNextWorkRequired_zero_spacing (pindexLast : CBlockIndex.t)
    (pblock : CBlockHeader.t) (params : Consensus.Params) :
  Consensus.nPowTargetSpacingV2 params = 0 ->
  28930 <= CBlockIndex.nHeight pindexLast ->
  Pow.GetNextWorkRequired pindexLast pblock params
  = Some (Arith256.GetCompact (UintToArith256 (Consensus.powLimit params))).
Proof.
  intros HT Hh. unfold Pow.GetNextWorkRequired.
  destruct (Z.geb_spec (CBlockIndex.nHeight pindexLast) 28930); [|lia].
  destruct (Z.leb_spec (CBlockIndex.nHeight pindexLast) 28999);
    [reflexivity|]. cbn [andb].
  destruct (Z.geb_spec (CBlockIndex.nHeight pindexLast + 1) 29000); [|lia].
  unfold Pow.LwmaCalculateNextWorkRequired. rewrite HT.
  destruct (_ =? 0); [reflexivity|].
  destruct (_ <? _); [reflexivity|].
  destruct (Pow.lwma_window pindexLast 0); reflexivity.
Qed.

Lemma chain_height nBits spacing height :
  CBlockIndex.nHeight (Fixtures.chain nBits spacing height) = Z.of_nat height.
Proof. destruct height; reflexivity. Qed.

Lemma GetNextWorkRequired_zero_spacing_witness :
  Pow.GetNextWorkRequired (Fixtures.chain 0x1c0ffff0 120 (Z.to_nat 29300))
    CBlockHeader.SetNull ChainParams.testnet_consensus
  = Some 0x1d00ffff.
Proof.
  apply (GetNextWorkRequired_zero_spacing
           (Fixtures.chain 0x1c0ffff0 120 (Z.to_nat 29300))
           CBlockHeader.SetNull ChainParams.testnet_consensus).
  - reflexivity.
  - rewrite chain_height. lia.
Defined.

(** ** The legacy retarget *)

(** X6.  With retargeting on, a positive [nPowTargetTimespan] whose
    fourfold fits 32 bits and a 256-bit [powLimit],
    [CalculateNextWorkRequired] returns a compact value (no [uint_error])
    whose target is at most [powLimit] and at most four times the
    predecessor's target. *)
Theorem CalculateNextWorkRequired_bounds (pindexLast : CBlockIndex.t)
    (nFirstBlockTime : Z) (params : Consensus.Params) :
  Consensus.fPowNoRetargeting params = false ->
  0 < Consensus.nPowTargetTimespan params ->
  Consensus.nPowTargetTimespan params * 4 < 2 ^ 32 ->
  Uint256.in_range (Consensus.powLimit params) ->
  exists nBits,
    Pow.CalculateNextWorkRequired pindexLast nFirstBlockTime params
    = Some nBits /\
    Arith256.decode nBits <= UintToArith256 (Consensus.powLimit params) /\
    Arith256.decode nBits
    <= 4 * Arith256.decode (CBlockIndex.nBits pindexLast).
Proof.
  intros Hflag Hpos H32 Hlim. unfold Pow.CalculateNextWorkRequired.
  rewrite Hflag. set (span := Consensus.nPowTargetTimespan params) in *.
  set (d := CBlockIndex.GetBlockTime pindexLast - nFirstBlockTime).
  set (d1 := if d <? Z.quot span 4 then Z.quot span 4 else d).
  set (d2 := if d1 >? span * 4 then span * 4 else d1).
  assert (Hq : 0 <= Z.quot span 4 <= span).
  { split; [apply Z.quot_pos; lia|apply Z.quot_le_upper_bound; lia]. }
  assert (Hd1 : Z.quot span 4 <= d1)
    by (subst d1; destruct (Z.ltb_spec d (Z.quot span 4)); lia).
  assert (Hd2 : 0 <= d2 <= span * 4)
    by (subst d2; destruct (Z.gtb_spec d1 (span * 4)); lia).
  set (old := Arith256.decode (CBlockIndex.nBits pindexLast)).
  pose proof (decode_range (CBlockIndex.nBits pindexLast)) as Hold.
  fold old in Hold.
  unfold Arith256.div64.
  assert (Espan : uint64 span = span) by (unfold uint64; apply Z.mod_small; lia).
  rewrite Espan, (proj2 (Z.eqb_neq span 0)) by lia.
  set (x := Arith256.mul32 old d2).
  pose proof (mul32_range old d2) as Hx. fold x in Hx.
  pose proof (mul32_le old d2 ltac:(lia) ltac:(lia)) as Hxle. fold x in Hxle.
  assert (Hquo : 0 <= x / span <= 4 * old).
  { split; [apply Z.div_pos; lia|].
    apply Z.div_le_upper_bound; [lia|]. nia. }
  assert (Hquo' : x / span < 2 ^ 256).
  { apply Z.div_lt_upper_bound; [lia|]. nia. }
  unfold Uint256.in_range in Hlim.
  set (powLimit := UintToArith256 (Consensus.powLimit params)) in *.
  eexists; split; [reflexivity|].
  destruct (Z.gtb_spec (x / span) powLimit).
  - pose proof (decode_GetCompact_le powLimit Hlim). lia.
  - pose proof (decode_GetCompact_le (x / span) ltac:(lia)). lia.
Qed.

Lemma CalculateNextWorkRequired_bounds_witness :
  exists nBits,
    Pow.CalculateNextWorkRequired (Fixtures.chain 0x1c0ffff0 600 143)
      1231006505 Fixtures.main_consensus = Some nBits /\
    Arith256.decode nBits
    <= UintToArith256 (Consensus.powLimit Fixtures.main_consensus) /\
    Arith256.decode nBits
    <= 4 * Arith256.decode
             (CBlockIndex.nBits (Fixtures.chain 0x1c0ffff0 600 143)).
Proof.
  apply (CalculateNextWorkRequired_bounds (Fixtures.chain 0x1c0ffff0 600 143)
           1231006505 Fixtures.main_consensus).
  - reflexivity.
  - vm_compute. reflexivity.
  - vm_compute. reflexivity.
  - unfold Uint256.in_range. vm_compute. split; [discriminate|reflexivity].
Defined.

(** X7.  Below the reset window, off a retarget boundary (the interval is
    the [int] that [DifficultyAdjustmentInterval] returns, and is not zero)
    and with the min-difficulty rule off, the engine returns the
    predecessor's bits unchanged. *)
Theorem GetNextWorkRequired_between_retargets (pindexLast : CBlockIndex.t)
    (pblock : CBlockHeader.t) (params : Consensus.Params) (interval : Z) :
  CBlockIndex.nHeight pindexLast < 28930 ->
  Consensus.DifficultyAdjustmentInterval params
    (CBlockIndex.nHeight pindexLast + 1) = Some interval ->
  interval <> 0 ->
  Z.rem (CBlockIndex.nHeight pindexLast + 1) interval <> 0 ->
  Consensus.fPowAllowMinDifficultyBlocks params = false ->
  Pow.GetNextWorkRequired pindexLast pblock params
  = Some (CBlockIndex.nBits pindexLast).
Proof.
  intros Hh Hint Hne Hr Hmin. unfold Pow.GetNextWorkRequired.
  destruct (Z.geb_spec (CBlockIndex.nHeight pindexLast) 28930); [lia|].
  cbn [andb].
  destruct (Z.geb_spec (CBlockIndex.nHeight pindexLast + 1) 29000); [lia|].
  unfold Pow.LegacyNextWorkRequired. rewrite Hint. unfold c_rem.
  rewrite (proj2 (Z.eqb_neq interval 0)) by assumption.
  rewrite (proj2 (Z.eqb_neq _ 0) Hr). cbn [negb]. now rewrite Hmin.
Qed.

Lemma GetNextWorkRequired_between_retargets_witness :
  Pow.GetNextWorkRequired (Fixtures.chain 0x1c0ffff0 600 100)
    CBlockHeader.SetNull Fixtures.main_consensus
  = Some 0x1c0ffff0.
Proof.
  apply (GetNextWorkRequired_between_retargets
           (Fixtures.chain 0x1c0ffff0 600 100) CBlockHeader.SetNull
           Fixtures.main_consensus 144).
  - vm_compute. reflexivity.
  - reflexivity.
  - discriminate.
  - vm_compute. discriminate.
  - reflexivity.
Defined.

(** X8.  The candidate header matters only to the min-difficulty rule: with
    that rule off, or from height 28930 on, the engine's answer is the same
    for every candidate header. *)
Theorem GetNextWorkRequired_ignores_candidate (pindexLast : CBlockIndex.t)
    (pblock pblock' : CBlockHeader.t) (params : Consensus.Params) :
  Consensus.fPowAllowMinDifficultyBlocks params = false \/
  28930 <= CBlockIndex.nHeight pindexLast ->
  Pow.GetNextWorkRequired pindexLast pblock params
  = Pow.GetNextWorkRequired pindexLast pblock' params.
Proof.
  intros Hcase. unfold Pow.GetNextWorkRequired.
  destruct (Z.geb_spec (CBlockIndex.nHeight pindexLast) 28930) as [Hge|Hlt];
    cbn [andb].
  - destruct (Z.leb_spec (CBlockIndex.nHeight pindexLast) 28999);
      [reflexivity|].
    destruct (Z.geb_spec (CBlockIndex.nHeight pindexLast + 1) 29000);
      [reflexivity|lia].
  - destruct Hcase as [Hmin|]; [|lia].
    destruct (_ >=? 29000); [reflexivity|].
    unfold Pow.LegacyNextWorkRequired. rewrite Hmin. reflexivity.
Qed.

Lemma GetNextWorkRequired_ignores_candidate_witness :
  Pow.GetNextWorkRequired (Fixtures.chain 0x1c0ffff0 600 100)
    CBlockHeader.SetNull Fixtures.main_consensus
  = Pow.GetNextWorkRequired (Fixtures.chain 0x1c0ffff0 600 100)
      (Fixtures.aux_header 0x1d00ffff) Fixtures.main_consensus.
Proof.
  apply (GetNextWorkRequired_ignores_candidate
           (Fixtures.chain 0x1c0ffff0 600 100) CBlockHeader.SetNull
           (Fixtures.aux_header 0x1d00ffff) Fixtures.main_consensus).
  left. reflexivity.
Defined.

(** Induction along the parent pointers of a block index. *)
Lemma CBlockIndex_parent_ind (P : CBlockIndex.t -> Prop) :
  (forall nHeight nTime nBits nStatus,
     P (CBlockIndex.mk nHeight nTime nBits nStatus None)) ->
  (forall nHeight nTime nBits nStatus prev,
     P prev -> P (CBlockIndex.mk nHeight nTime nBits nStatus (Some prev))) ->
  forall p, P p.
Proof.
  intros Hnone Hsome. fix IH 1. intros [nHeight nTime nBits nStatus [prev|]].
  - apply Hsome, IH.
  - apply Hnone.
Qed.

Lemma last_non_min_difficulty_result params limit : forall p bits,
  Pow.last_non_min_difficulty params limit p = Some bits ->
  exists n q,
    min_difficulty_walk params limit p n q /\ CBlockIndex.nBits q = bits.
Proof.
  unfold min_difficulty_walk.
  induction p as [nHeight nTime nBits nStatus|nHeight nTime nBits nStatus prev IH]
    using CBlockIndex_parent_ind; intros bits Hres.
  - cbn in Hres. injection Hres as <-.
    exists 0%nat, (CBlockIndex.mk nHeight nTime nBits nStatus None).
    split; [split; [reflexivity|split; [intros m q' Hm; lia|]]|reflexivity].
    left. reflexivity.
  - cbn [Pow.last_non_min_difficulty] in Hres.
    destruct (Consensus.DifficultyAdjustmentInterval params nHeight)
      as [interval|] eqn:Eint; [|discriminate].
    unfold c_rem in Hres.
    destruct (Z.eqb_spec interval 0) as [|Hint]; [discriminate|].
    destruct (Z.eqb_spec (Z.rem nHeight interval) 0) as [Hr|Hr];
      cbn [negb andb] in Hres.
    + injection Hres as <-.
      exists 0%nat, (CBlockIndex.mk nHeight nTime nBits nStatus (Some prev)).
      split; [split; [reflexivity|split; [intros m q' Hm; lia|]]|reflexivity].
      right. left. exists interval. cbn [CBlockIndex.nHeight]. auto.
    + destruct (Z.eqb_spec nBits limit) as [Hb|Hb].
      * destruct (IH bits Hres) as (n & q & (Hw & Hnear & Hstop) & Hq).
        exists (S n), q. cbn [CBlockIndex.walk CBlockIndex.pprev].
        split; [split; [exact Hw|split; [|exact Hstop]]|exact Hq].
        intros [|m] q' Hm Hw'.
        -- cbn in Hw'. injection Hw' as <-.
           cbn [CBlockIndex.pprev CBlockIndex.nBits CBlockIndex.nHeight].
           split; [discriminate|]. split; [|exact Hb].
           exists interval. cbn [CBlockIndex.nHeight]. auto.
        -- cbn [CBlockIndex.walk CBlockIndex.pprev] in Hw'.
           apply (Hnear m q'); [lia|assumption].
      * injection Hres as <-.
        exists 0%nat, (CBlockIndex.mk nHeight nTime nBits nStatus (Some prev)).
        split; [split; [reflexivity|split; [intros m q' Hm; lia|]]|reflexivity].
        right. right. exact Hb.
Qed.

(** A block cannot both pass and fail the tests of the loop, so the walk
    has one end only. *)
Lemma min_difficulty_walk_unique params limit p n q n' q' :
  min_difficulty_walk params limit p n q ->
  min_difficulty_walk params limit p n' q' ->
  n' = n /\ q' = q.
Proof.
  assert (Hexcl : forall r,
    CBlockIndex.pprev r <> None /\ off_boundary params r /\
    CBlockIndex.nBits r = limit ->
    CBlockIndex.pprev r = None \/ on_boundary params r \/
    CBlockIndex.nBits r <> limit -> False).
  { intros r (Hp & (i & Ei & _ & Hoff) & Hb) [Hn|[(i' & Ei' & _ & Hon)|Hb']].
    - contradiction.
    - rewrite Ei in Ei'. injection Ei' as <-. contradiction.
    - contradiction. }
  intros (Hw & Hnear & Hstop) (Hw' & Hnear' & Hstop').
  destruct (Nat.lt_trichotomy n n') as [Hlt|[Heq|Hgt]].
  - exfalso. apply (Hexcl q); [apply (Hnear' n q Hlt Hw)|exact Hstop].
  - subst n'. split; [reflexivity|]. congruence.
  - exfalso. apply (Hexcl q'); [apply (Hnear n' q' Hgt Hw')|exact Hstop'].
Qed.

(** X9.  Where the min-difficulty rule applies (below the reset window, off
    a retarget boundary, rule on), the engine returns the encoded
    [powLimit] for a candidate more than two spacings after its
    predecessor; otherwise it returns the bits of the block at which the
    walk back from the predecessor ends: the nearest one that has no
    parent, sits on a retarget boundary or does not carry the minimum
    difficulty, every block before it having a parent, being off the
    boundary and carrying the minimum difficulty.  That block is unique. *)
Theorem GetNextWorkRequired_min_difficulty (pindexLast : CBlockIndex.t)
    (pblock : CBlockHeader.t) (params : Consensus.Params)
    (interval bits : Z) :
  let limit :=
    Arith256.GetCompact (UintToArith256 (Consensus.powLimit params)) in
  CBlockIndex.nHeight pindexLast < 28930 ->
  Consensus.DifficultyAdjustmentInterval params
    (CBlockIndex.nHeight pindexLast + 1) = Some interval ->
  interval <> 0 ->
  Z.rem (CBlockIndex.nHeight pindexLast + 1) interval <> 0 ->
  Consensus.fPowAllowMinDifficultyBlocks params = true ->
  Pow.GetNextWorkRequired pindexLast pblock params = Some bits ->
  if CBlockHeader.GetBlockTime pblock >?
     CBlockIndex.GetBlockTime pindexLast + Consensus.nPowTargetSpacing params * 2
  then bits = limit
  else
    exists n q,
      min_difficulty_walk params limit pindexLast n q /\
      CBlockIndex.nBits q = bits /\
      forall n' q',
        min_difficulty_walk params limit pindexLast n' q' -> n' = n /\ q' = q.
Proof.
  intros limit Hh Hint Hne Hr Hmin. unfold Pow.GetNextWorkRequired.
  destruct (Z.geb_spec (CBlockIndex.nHeight pindexLast) 28930); [lia|].
  cbn [andb].
  destruct (Z.geb_spec (CBlockIndex.nHeight pindexLast + 1) 29000); [lia|].
  unfold Pow.LegacyNextWorkRequired. rewrite Hint. unfold c_rem.
  rewrite (proj2 (Z.eqb_neq interval 0)) by assumption.
  rewrite (proj2 (Z.eqb_neq _ 0) Hr). cbn [negb]. rewrite Hmin. fold limit.
  destruct (_ >? _).
  - now intros [= <-].
  - intros Hres.
    destruct (last_non_min_difficulty_result _ _ _ _ Hres) as (n & q & Hw & Hq).
    exists n, q. split; [exact Hw|]. split; [exact Hq|].
    intros n' q' Hw'. exact (min_difficulty_walk_unique _ _ _ _ _ _ _ Hw Hw').
Qed.

(** On the test network (interval 720) with a tip at height 750: the blocks
    from 720 on carry the minimum difficulty, those below carry
    [0x1c0ffff0].  The walk ends on the boundary block 720 and the engine
    returns its bits, not those of block 719. *)
Lemma GetNextWorkRequired_min_difficulty_witness :
  let pindexLast := stepped_chain 0x1c0ffff0 0x1d00ffff 720 120 750 in
  exists n q,
    min_difficulty_walk ChainParams.testnet_consensus 0x1d00ffff
      pindexLast n q /\
    CBlockIndex.nBits q = 0x1d00ffff /\
    forall n' q',
      min_difficulty_walk ChainParams.testnet_consensus 0x1d00ffff
        pindexLast n' q' -> n' = n /\ q' = q.
Proof.
  apply (GetNextWorkRequired_min_difficulty
           (stepped_chain 0x1c0ffff0 0x1d00ffff 720 120 750)
           CBlockHeader.SetNull ChainParams.testnet_consensus 720 0x1d00ffff).
  - vm_compute. reflexivity.
  - reflexivity.
  - discriminate.
  - vm_compute. discriminate.
  - reflexivity.
  - vm_compute. reflexivity.
Defined.

Lemma DifficultyAdjustmentInterval_legacy params h h' :
  h < 29000 -> h' < 29000 ->
  Consensus.DifficultyAdjustmentInterval params h
  = Consensus.DifficultyAdjustmentInterval params h'.
Proof.
  intros Hh Hh'. unfold Consensus.DifficultyAdjustmentInterval.
  now rewrite (proj2 (Z.ltb_lt h 29000)), (proj2 (Z.ltb_lt h' 29000)).
Qed.

Lemma last_non_min_difficulty_linked params limit p interval :
  Consensus.DifficultyAdjustmentInterval params 0 = Some interval ->
  interval <> 0 ->
  linked p -> CBlockIndex.nHeight p < 29000 ->
  exists bits, Pow.last_non_min_difficulty params limit p = Some bits.
Proof.
  intros Hint Hne Hp.
  induction Hp as [nTime nBits nStatus|p nTime nBits nStatus Hp IH];
    intros Hh.
  - eexists. reflexivity.
  - cbn [CBlockIndex.nHeight] in Hh. cbn [Pow.last_non_min_difficulty].
    rewrite (DifficultyAdjustmentInterval_legacy params
               (CBlockIndex.nHeight p + 1) 0), Hint by lia.
    unfold c_rem. rewrite (proj2 (Z.eqb_neq interval 0)) by assumption.
    destruct (_ && _); [apply IH; lia|eexists; reflexivity].
Qed.

(** X10.  On a well-formed chain below the reset window, with a positive
    adjustment interval (the [int] that [DifficultyAdjustmentInterval]
    returns) and a positive timespan whose fourfold fits [int64_t], the
    engine returns a value: no division by zero, neither [assert] of the
    retarget branch fires and no [uint_error] is thrown. *)
Theorem GetNextWorkRequired_legacy_returns (pindexLast : CBlockIndex.t)
    (pblock : CBlockHeader.t) (params : Consensus.Params) (interval : Z) :
  linked pindexLast ->
  CBlockIndex.nHeight pindexLast < 28930 ->
  Consensus.DifficultyAdjustmentInterval params
    (CBlockIndex.nHeight pindexLast + 1) = Some interval ->
  0 < interval ->
  0 < Consensus.nPowTargetTimespan params < 2 ^ 61 ->
  exists bits, Pow.GetNextWorkRequired pindexLast pblock params = Some bits.
Proof.
  intros Hp Hh Hint Hpos Hspan. unfold Pow.GetNextWorkRequired.
  destruct (Z.geb_spec (CBlockIndex.nHeight pindexLast) 28930); [lia|].
  cbn [andb].
  destruct (Z.geb_spec (CBlockIndex.nHeight pindexLast + 1) 29000); [lia|].
  unfold Pow.LegacyNextWorkRequired. rewrite Hint.
  unfold c_rem. rewrite (proj2 (Z.eqb_neq interval 0)) by lia.
  pose proof (linked_height_nonneg _ Hp) as Hh0.
  destruct (Z.eqb_spec (Z.rem (CBlockIndex.nHeight pindexLast + 1) interval) 0)
    as [Hr|Hr]; cbn [negb].
  - assert (Hfirst : 0 <= CBlockIndex.nHeight pindexLast - (interval - 1)).
    { rewrite Z.rem_mod_nonneg in Hr by lia.
      apply Z.mod_divide in Hr; [|lia]. destruct Hr as [c Hc].
      assert (0 < c) by nia. nia. }
    rewrite (proj2 (Z.ltb_ge _ 0)) by assumption.
    destruct (GetAncestor_linked pindexLast
                (CBlockIndex.nHeight pindexLast - (interval - 1)) Hp
                ltac:(lia)) as (pindexFirst & -> & _).
    unfold Pow.CalculateNextWorkRequired.
    destruct (Consensus.fPowNoRetargeting params); [eexists; reflexivity|].
    unfold Arith256.div64.
    assert (E : uint64 (Consensus.nPowTargetTimespan params)
                = Consensus.nPowTargetTimespan params)
      by (unfold uint64; apply Z.mod_small; lia).
    rewrite E, (proj2 (Z.eqb_neq _ 0)) by lia. eexists; reflexivity.
  - destruct (Consensus.fPowAllowMinDifficultyBlocks params);
      [|eexists; reflexivity].
    destruct (_ >? _); [eexists; reflexivity|].
    apply (last_non_min_difficulty_linked params _ pindexLast interval);
      [|lia|assumption|lia].
    rewrite <- Hint. apply DifficultyAdjustmentInterval_legacy; lia.
Qed.

Lemma GetNextWorkRequired_legacy_returns_witness :
  exists bits,
    Pow.GetNextWorkRequired (Fixtures.chain 0x1c0ffff0 600 143)
      CBlockHeader.SetNull Fixtures.main_consensus = Some bits.
Proof.
  apply (GetNextWorkRequired_legacy_returns
           (Fixtures.chain 0x1c0ffff0 600 143) CBlockHeader.SetNull
           Fixtures.main_consensus 144).
  - apply chain_linked.
  - vm_compute. reflexivity.
  - reflexivity.
  - reflexivity.
  - vm_compute. split; reflexivity.
Defined.

(** ** Merkle branches *)

Lemma land_1_testbit i : (Z.land i 1 =? 0) = negb (Z.testbit i 0).
Proof.
  change 1 with (Z.ones 1). rewrite Z.land_ones by lia. change (2 ^ 1) with 2.
  rewrite Z.bit0_odd, Zmod_odd. destruct (Z.odd i); reflexivity.
Qed.

Section MerkleFacts.
Context {hashing : Hashing}.

(** X11.  A branch can be climbed in two stages: the root over [b1 ++ b2]
    is the root over [b2] from the root over [b1], with the index shifted
    by the length of [b1]. *)
Theorem ComputeMerkleRootFromBranch_app (b1 b2 : list uint256) :
  forall (h : uint256) (nIndex : Z),
  ComputeMerkleRootFromBranch h (b1 ++ b2) nIndex
  = ComputeMerkleRootFromBranch (ComputeMerkleRootFromBranch h b1 nIndex) b2
      (Z.shiftr nIndex (Z.of_nat (length b1))).
Proof.
  induction b1 as [|step b1 IH]; intros h nIndex.
  - cbn. now rewrite Z.shiftr_0_r.
  - cbn [app ComputeMerkleRootFromBranch length]. rewrite IH.
    rewrite Z.shiftr_shiftr by lia. do 2 f_equal. lia.
Qed.

(** The climb reads one bit of the index per step. *)
Lemma merkle_root_index_bits (branch : list uint256) :
  forall (h : uint256) (nIndex nIndex' : Z),
  (forall k, 0 <= k < Z.of_nat (length branch) ->
             Z.testbit nIndex k = Z.testbit nIndex' k) ->
  ComputeMerkleRootFromBranch h branch nIndex
  = ComputeMerkleRootFromBranch h branch nIndex'.
Proof.
  induction branch as [|step branch IH]; intros h nIndex nIndex' Hbits.
  - reflexivity.
  - cbn [ComputeMerkleRootFromBranch]. rewrite !land_1_testbit.
    rewrite (Hbits 0) by (cbn [length]; lia).
    apply IH. intros k Hk. rewrite !Z.shiftr_spec by lia.
    apply Hbits. cbn [length]. lia.
Qed.

(** X12.  Only the lowest [length branch] bits of the index are read: two
    indices that agree on them give the same root. *)
Theorem ComputeMerkleRootFromBranch_index_bits (branch : list uint256) :
  forall (h : uint256) (nIndex nIndex' : Z),
  (forall k, 0 <= k < Z.of_nat (length branch) ->
             Z.testbit nIndex k = Z.testbit nIndex' k) ->
  ComputeMerkleRootFromBranch h branch nIndex
  = ComputeMerkleRootFromBranch h branch nIndex'.
Proof. exact (merkle_root_index_bits branch). Qed.
End MerkleFacts.

Lemma ComputeMerkleRootFromBranch_index_bits_witness :
  ComputeMerkleRootFromBranch (hashing := Fixtures.sum_hashing) 7 [11; 13] 1
  = ComputeMerkleRootFromBranch (hashing := Fixtures.sum_hashing) 7 [11; 13] 5.
Proof.
  apply (@ComputeMerkleRootFromBranch_index_bits Fixtures.sum_hashing
           [11; 13] 7 1 5).
  intros k Hk. assert (Hcase : k = 0 \/ k = 1) by (cbn in Hk; lia).
  destruct Hcase as [-> | ->]; reflexivity.
Defined.

(** ** The AuxPoW verifier: what it accepts and what it reads *)

Lemma byte_eqb_refl a : byte_eqb a a = true.
Proof. unfold byte_eqb. apply Z.eqb_refl. Qed.

Lemma starts_with_prefix needle rest : starts_with needle (needle ++ rest) = true.
Proof.
  induction needle as [|a needle IH]; [reflexivity|].
  cbn [app starts_with]. now rewrite byte_eqb_refl, IH.
Qed.

Lemma starts_with_length needle : forall hay,
  starts_with needle hay = true -> (length needle <= length hay)%nat.
Proof.
  induction needle as [|a needle IH]; intros [|b hay] E; cbn in *;
    try lia; try discriminate.
  apply andb_true_iff in E as [_ E]. specialize (IH _ E). lia.
Qed.

Lemma starts_with_app_indep needle : forall l Y,
  (length needle <= length l)%nat ->
  starts_with needle (l ++ Y) = starts_with needle l.
Proof.
  induction needle as [|a needle IH]; intros [|b l] Y Hlen; cbn in *;
    try reflexivity; try lia.
  rewrite IH by lia. reflexivity.
Qed.

Lemma std_search_le needle : forall hay,
  (std_search hay needle <= length hay)%nat.
Proof.
  induction hay as [|a hay IH]; cbn [std_search].
  - destruct (starts_with needle []); cbn; lia.
  - destruct (starts_with needle (a :: hay)); cbn [length]; lia.
Qed.

(** The search finds the needle wherever it occurs, at or before the
    occurrence shown. *)
Lemma std_search_complete needle rest : forall pre,
  (std_search (pre ++ needle ++ rest) needle <= length pre)%nat.
Proof.
  induction pre as [|a pre IH]; cbn [app std_search].
  - assert (E : std_search (needle ++ rest) needle = 0%nat).
    { pose proof (starts_with_prefix needle rest) as Hsw.
      destruct (needle ++ rest); cbn [std_search]; now rewrite Hsw. }
    rewrite E. cbn. lia.
  - destruct (starts_with needle (a :: pre ++ needle ++ rest));
      cbn [length]; lia.
Qed.

Lemma std_search_found_length needle hay :
  std_search hay needle <> length hay ->
  (std_search hay needle + length needle <= length hay)%nat.
Proof.
  intros Hne. pose proof (std_search_found needle hay Hne) as E.
  apply starts_with_length in E. rewrite length_skipn in E.
  pose proof (std_search_le needle hay). lia.
Qed.

(** What follows a found needle does not move the first occurrence. *)
Lemma std_search_app needle : forall l Y,
  std_search l needle <> length l ->
  std_search (l ++ Y) needle = std_search l needle.
Proof.
  induction l as [|a l IH]; intros Y Hne.
  - cbn in Hne. destruct (starts_with needle []); contradiction.
  - pose proof (std_search_found_length needle (a :: l) Hne) as Hlen.
    pose proof (starts_with_app_indep needle (a :: l) Y) as Hsw.
    cbn [std_search app length] in *. rewrite Hsw by lia.
    destruct (starts_with needle (a :: l)); [reflexivity|].
    f_equal. apply IH. cbn [length] in Hne. congruence.
Qed.

Section VerifierFacts.
Context {hashing : Hashing}.

Lemma check_commitment_intro block ap script scanned pre commit post :
  script = pre ++ pchAuxPowHeader ++ commit ++ post ->
  length pre = std_search script pchAuxPowHeader ->
  length commit = 32%nat ->
  Uint256.of_bytes (rev commit)
  = GetHash (CBlockHeader.clear_auxpow_bit (CBlock.GetBlockHeader block)) ->
  GetParentBlockHash ap ∉ scanned ->
  check_commitment block ap script scanned = Passed.
Proof.
  intros Hs Hpre Hlen Hhash Hnot. unfold check_commitment. rewrite <- Hpre.
  assert (Hscript : length script = (length pre + 4 + 32 + length post)%nat).
  { rewrite Hs, !length_app, Hlen. cbn. lia. }
  destruct (Nat.eqb_spec (length pre) (length script)); [lia|].
  assert (Evch : skipn (length pre + length pchAuxPowHeader) script
                 = commit ++ post).
  { rewrite Hs, skipn_app, skipn_all2 by lia.
    replace (length pre + length pchAuxPowHeader - length pre)%nat
      with 4%nat by (cbn; lia).
    reflexivity. }
  rewrite Evch.
  destruct (Nat.ltb_spec (length (commit ++ post)) 32) as [Hshort|_];
    [rewrite length_app in Hshort; lia|].
  rewrite firstn_app, <- Hlen, firstn_all, Nat.sub_diag. cbn [firstn].
  rewrite app_nil_r, reverse_of_bytes, Hhash, Z.eqb_refl by assumption.
  cbn [negb]. now rewrite bool_decide_eq_false_2.
Qed.

(** X13.  The acceptance criterion of the verifier: it passes exactly when
    the block has the AuxPoW flag and a proof, the parent header's hash
    meets the block's own target, the coinbase is present and its hash
    climbs the branch to the parent's Merkle root, the coinbase's first
    script holds, after the first occurrence of the magic, 32 bytes that
    reversed are the hash of the header without the flag, and the parent
    hash is not in the duplicate-parent set. *)
Theorem CheckAuxPowProofOfWork_passes_iff (block : CBlock.t)
    (params : Consensus.Params) (scanned : gset uint256) :
  fst (CheckAuxPowProofOfWork block params scanned) = Some Passed <->
  CBlock.IsAuxpow block = true /\
  exists ap coinbaseTx vin0 vin_rest pre commit post,
    CBlock.m_auxpow block = Some ap /\
    Pow.CheckProofOfWork (GetParentBlockHash ap)
      (CBlockHeader.nBits (CBlock.header block)) params = true /\
    CAuxPow.coinbaseTx ap = Some coinbaseTx /\
    CBlockHeader.hashMerkleRoot (CAuxPow.parentBlock ap)
    = CheckMerkleBranch (TxGetHash coinbaseTx) (CAuxPow.vMerkleBranch ap)
        (CAuxPow.nIndex ap) /\
    vin coinbaseTx = vin0 :: vin_rest /\
    scriptSig vin0 = pre ++ pchAuxPowHeader ++ commit ++ post /\
    length pre = std_search (scriptSig vin0) pchAuxPowHeader /\
    length commit = 32%nat /\
    Uint256.of_bytes (rev commit)
    = GetHash (CBlockHeader.clear_auxpow_bit (CBlock.GetBlockHeader block)) /\
    GetParentBlockHash ap ∉ scanned.
Proof.
  unfold CheckAuxPowProofOfWork. split.
  - destruct (CBlock.IsAuxpow block); cbn [negb fst]; [|discriminate].
    destruct (CBlock.m_auxpow block) as [ap|]; [|discriminate].
    destruct (Pow.CheckProofOfWork _ _ _) eqn:Epow; cbn [negb fst];
      [|discriminate].
    destruct (CAuxPow.coinbaseTx ap) as [coinbaseTx|] eqn:Ecb; [|discriminate].
    destruct (Z.eqb_spec (CBlockHeader.hashMerkleRoot (CAuxPow.parentBlock ap))
                (CheckMerkleBranch (TxGetHash coinbaseTx)
                   (CAuxPow.vMerkleBranch ap) (CAuxPow.nIndex ap)))
      as [Eroot|]; cbn [negb fst]; [|discriminate].
    destruct (vin coinbaseTx) as [|vin0 vin_rest] eqn:Evin; [discriminate|].
    cbn [fst]. intros [= Hpass]. split; [reflexivity|].
    destruct (check_commitment_passed _ _ _ _ Hpass)
      as (pre & commit & post & Hs & Hpre & Hlen & Hhash & Hnot).
    exists ap, coinbaseTx, vin0, vin_rest, pre, commit, post.
    repeat split; solve [assumption | reflexivity].
  - intros (Hflag & ap & coinbaseTx & vin0 & vin_rest & pre & commit & post
            & Hap & Hpow & Hcb & Hroot & Hvin & Hs & Hpre & Hlen & Hhash & Hnot).
    rewrite Hflag, Hap, Hpow, Hcb, Hroot, Z.eqb_refl, Hvin. cbn [negb fst].
    f_equal. now apply (check_commitment_intro _ _ _ _ pre commit post).
Qed.

(** X14.  A block that passes the verifier meets its own target with the
    hash that [GetPoWHash] selects, which is the parent header's hash. *)
Theorem CheckAuxPowProofOfWork_pow_hash (block : CBlock.t)
    (params : Consensus.Params) (scanned : gset uint256) :
  fst (CheckAuxPowProofOfWork block params scanned) = Some Passed ->
  (exists ap, CBlock.m_auxpow block = Some ap /\
              GetPoWHash block = GetParentBlockHash ap) /\
  Pow.CheckProofOfWork (GetPoWHash block)
    (CBlockHeader.nBits (CBlock.header block)) params = true.
Proof.
  unfold CheckAuxPowProofOfWork, GetPoWHash.
  destruct (CBlock.IsAuxpow block); cbn [negb fst]; [|discriminate].
  destruct (CBlock.m_auxpow block) as [ap|]; [|discriminate].
  destruct (Pow.CheckProofOfWork _ _ _) eqn:Epow; cbn [negb fst];
    [|discriminate].
  intros _. split; [exists ap; split; reflexivity|reflexivity].
Qed.

(** X15.  Growing the duplicate-parent set changes the verdict in one way
    only: a pass becomes the duplicate-parent failure. *)
Theorem CheckAuxPowProofOfWork_set_monotone (block : CBlock.t)
    (params : Consensus.Params) (scanned scanned' : gset uint256) :
  scanned ⊆ scanned' ->
  fst (CheckAuxPowProofOfWork block params scanned')
  = fst (CheckAuxPowProofOfWork block params scanned) \/
  (fst (CheckAuxPowProofOfWork block params scanned) = Some Passed /\
   fst (CheckAuxPowProofOfWork block params scanned')
   = Some (Failed ErrDuplicateParent)).
Proof.
  intros Hsub. unfold CheckAuxPowProofOfWork.
  destruct (negb (CBlock.IsAuxpow block)); [now left|].
  destruct (CBlock.m_auxpow block) as [ap|]; [|now left].
  destruct (negb (Pow.CheckProofOfWork _ _ _)); [now left|].
  destruct (CAuxPow.coinbaseTx ap) as [coinbaseTx|]; [|now left].
  destruct (negb _); [now left|].
  destruct (vin coinbaseTx) as [|vin0 vin_rest]; [now left|].
  cbn [fst]. unfold check_commitment.
  destruct (_ =? _)%nat; [now left|].
  destruct (_ <? _)%nat; [now left|].
  destruct (negb _); [now left|].
  case_bool_decide as Hin; case_bool_decide as Hin'; auto.
  exfalso. apply Hin. apply Hsub, Hin'.
Qed.
End VerifierFacts.

Lemma CheckAuxPowProofOfWork_pow_hash_witness :
  let block := Fixtures.aux_block 0x1d00ffff (Fixtures.good_commit 0x1d00ffff) in
  (exists ap, CBlock.m_auxpow block = Some ap /\
              GetPoWHash (hashing := Fixtures.sum_hashing) block
              = GetParentBlockHash (hashing := Fixtures.sum_hashing) ap) /\
  Pow.CheckProofOfWork (GetPoWHash (hashing := Fixtures.sum_hashing) block)
    (CBlockHeader.nBits (CBlock.header block)) Fixtures.auxpow_consensus = true.
Proof.
  apply (@CheckAuxPowProofOfWork_pow_hash Fixtures.sum_hashing
           (Fixtures.aux_block 0x1d00ffff (Fixtures.good_commit 0x1d00ffff))
           Fixtures.auxpow_consensus ∅).
  vm_compute. reflexivity.
Defined.

Lemma CheckAuxPowProofOfWork_set_monotone_witness :
  let block := Fixtures.aux_block 0x1d00ffff (Fixtures.good_commit 0x1d00ffff) in
  let scanned' : gset uint256 :=
    {[ GetHash (hashing := Fixtures.sum_hashing) Fixtures.parent_header ]} in
  fst (CheckAuxPowProofOfWork (hashing := Fixtures.sum_hashing) block
         Fixtures.auxpow_consensus scanned')
  = fst (CheckAuxPowProofOfWork (hashing := Fixtures.sum_hashing) block
           Fixtures.auxpow_consensus ∅) \/
  (fst (CheckAuxPowProofOfWork (hashing := Fixtures.sum_hashing) block
          Fixtures.auxpow_consensus ∅) = Some Passed /\
   fst (CheckAuxPowProofOfWork (hashing := Fixtures.sum_hashing) block
          Fixtures.auxpow_consensus scanned')
   = Some (Failed ErrDuplicateParent)).
Proof.
  apply (@CheckAuxPowProofOfWork_set_monotone Fixtures.sum_hashing).
  set_solver.
Defined.

Section CommitmentFacts.
Context {hashing : Hashing}.

(** X16.  The verifier reports missing magic bytes only when the first
    script of the parent coinbase holds them nowhere. *)
Theorem CheckAuxPowProofOfWork_magic_not_found (block : CBlock.t)
    (params : Consensus.Params) (scanned : gset uint256) :
  fst (CheckAuxPowProofOfWork block params scanned)
  = Some (Failed ErrMagicNotFound) ->
  exists ap coinbaseTx vin0 vin_rest,
    CBlock.m_auxpow block = Some ap /\
    CAuxPow.coinbaseTx ap = Some coinbaseTx /\
    vin coinbaseTx = vin0 :: vin_rest /\
    forall pre post, scriptSig vin0 <> pre ++ pchAuxPowHeader ++ post.
Proof.
  unfold CheckAuxPowProofOfWork.
  destruct (negb (CBlock.IsAuxpow block)); [discriminate|].
  destruct (CBlock.m_auxpow block) as [ap|]; [|discriminate].
  destruct (negb (Pow.CheckProofOfWork _ _ _)); [discriminate|].
  destruct (CAuxPow.coinbaseTx ap) as [coinbaseTx|] eqn:Ecb; [|discriminate].
  destruct (negb _); [discriminate|].
  destruct (vin coinbaseTx) as [|vin0 vin_rest] eqn:Evin; [discriminate|].
  cbn [fst]. unfold check_commitment.
  destruct (Nat.eqb_spec (std_search (scriptSig vin0) pchAuxPowHeader)
              (length (scriptSig vin0))) as [Hend|]; cycle 1.
  { destruct (_ <? _)%nat; [discriminate|].
    destruct (negb _); [discriminate|].
    destruct (bool_decide _); discriminate. }
  intros _. exists ap, coinbaseTx, vin0, vin_rest.
  repeat split; try assumption. intros pre post Hs.
  pose proof (std_search_complete pchAuxPowHeader post pre) as Hle.
  rewrite <- Hs, Hend, Hs, !length_app in Hle. cbn in Hle. lia.
Qed.

(** X17.  The commitment check reads the script up to the 32nd byte after
    the magic and no further: what follows does not change its verdict. *)
Theorem check_commitment_ignores_tail (block : CBlock.t) (ap : CAuxPow.t)
    (scanned : gset uint256) (pre commit post post' : list byte) :
  length commit = 32%nat ->
  check_commitment block ap (pre ++ pchAuxPowHeader ++ commit ++ post) scanned
  = check_commitment block ap (pre ++ pchAuxPowHeader ++ commit ++ post')
      scanned.
Proof.
  intros Hlen.
  set (X := pre ++ pchAuxPowHeader ++ commit).
  assert (HX : forall tail,
             pre ++ pchAuxPowHeader ++ commit ++ tail = X ++ tail).
  { intros tail. subst X. now rewrite <- !app_assoc. }
  rewrite !HX.
  assert (Hpc : (std_search X pchAuxPowHeader <= length pre)%nat)
    by (apply std_search_complete).
  assert (HlenX : length X = (length pre + 4 + 32)%nat).
  { subst X. rewrite !length_app, Hlen. cbn. lia. }
  assert (Hcommon : forall tail,
    check_commitment block ap (X ++ tail) scanned =
    let pc := std_search X pchAuxPowHeader in
    if negb (Uint256.reverse
               (Uint256.of_bytes (firstn 32 (skipn (pc + 4) X)))
             =? GetHash (CBlockHeader.clear_auxpow_bit
                           (CBlock.GetBlockHeader block)))
    then Failed ErrCommitmentMismatch
    else if bool_decide (GetParentBlockHash ap ∈ scanned)
         then Failed ErrDuplicateParent else Passed).
  { intros tail. unfold check_commitment.
    rewrite (std_search_app pchAuxPowHeader X tail) by lia.
    set (pc := std_search X pchAuxPowHeader) in *.
    destruct (Nat.eqb_spec pc (length (X ++ tail))) as [E|_];
      [rewrite length_app in E; lia|].
    change (length pchAuxPowHeader) with 4%nat.
    rewrite skipn_app.
    assert (Hskip : (32 <= length (skipn (pc + 4) X))%nat)
      by (rewrite length_skipn; lia).
    destruct (Nat.ltb_spec
                (length (skipn (pc + 4) X
                         ++ skipn (pc + 4 - length X) tail)) 32) as [E|_];
      [rewrite length_app in E; lia|].
    rewrite firstn_app.
    replace (32 - length (skipn (pc + 4) X))%nat with 0%nat by lia.
    cbn [firstn]. rewrite app_nil_r. reflexivity. }
  now rewrite !Hcommon.
Qed.

(** X18.  The verifier never reads the proof's [hashBlock], its chain
    Merkle branch and chain index, the Merkle index above the branch
    length, the block's transactions or [fChecked]: changing them leaves
    verdict and set as they were. *)
Theorem CheckAuxPowProofOfWork_unread_fields (block : CBlock.t)
    (params : Consensus.Params) (scanned : gset uint256) (ap : CAuxPow.t)
    (hashBlock' : uint256) (vChainMerkleBranch' : list uint256)
    (nChainIndex' nIndex' : Z) (vtx' : list CTransaction) (fChecked' : bool) :
  CBlock.m_auxpow block = Some ap ->
  (forall k, 0 <= k < Z.of_nat (length (CAuxPow.vMerkleBranch ap)) ->
             Z.testbit (CAuxPow.nIndex ap) k = Z.testbit nIndex' k) ->
  let ap' :=
    CAuxPow.mk (CAuxPow.coinbaseTx ap) hashBlock' (CAuxPow.vMerkleBranch ap)
      nIndex' vChainMerkleBranch' nChainIndex' (CAuxPow.parentBlock ap) in
  let block' := CBlock.mk (CBlock.header block) vtx' (Some ap') fChecked' in
  CheckAuxPowProofOfWork block' params scanned
  = CheckAuxPowProofOfWork block params scanned.
Proof.
  intros Hap Hbits ap' block'. unfold CheckAuxPowProofOfWork.
  rewrite Hap. subst block'. unfold CBlock.IsAuxpow.
  cbn [CBlock.header CBlock.m_auxpow].
  destruct (negb (CBlockHeader.IsAuxpow (CBlock.header block))); [reflexivity|].
  change (GetParentBlockHash ap') with (GetParentBlockHash ap).
  destruct (negb (Pow.CheckProofOfWork _ _ _)); [reflexivity|].
  subst ap'. cbn [CAuxPow.coinbaseTx CAuxPow.vMerkleBranch CAuxPow.nIndex
                  CAuxPow.parentBlock].
  destruct (CAuxPow.coinbaseTx ap) as [coinbaseTx|]; [|reflexivity].
  unfold CheckMerkleBranch.
  rewrite (merkle_root_index_bits _ _ nIndex' (CAuxPow.nIndex ap))
    by (intros k Hk; symmetry; now apply Hbits).
  reflexivity.
Qed.
End CommitmentFacts.


Lemma CheckAuxPowProofOfWork_magic_not_found_witness :
  exists ap coinbaseTx vin0 vin_rest,
    CBlock.m_auxpow no_magic_block = Some ap /\
    CAuxPow.coinbaseTx ap = Some coinbaseTx /\
    vin coinbaseTx = vin0 :: vin_rest /\
    forall pre post, scriptSig vin0 <> pre ++ pchAuxPowHeader ++ post.
Proof.
  apply (@CheckAuxPowProofOfWork_magic_not_found Fixtures.sum_hashing
           no_magic_block Fixtures.auxpow_consensus ∅).
  vm_compute. reflexivity.
Defined.

Lemma check_commitment_ignores_tail_witness :
  check_commitment (hashing := Fixtures.sum_hashing)
    (Fixtures.aux_block 0x1d00ffff (Fixtures.good_commit 0x1d00ffff))
    (Fixtures.aux_proof (Fixtures.good_commit 0x1d00ffff))
    ([Byte.x03] ++ pchAuxPowHeader ++ Fixtures.good_commit 0x1d00ffff
     ++ [Byte.x00; Byte.x01]) ∅
  = check_commitment (hashing := Fixtures.sum_hashing)
      (Fixtures.aux_block 0x1d00ffff (Fixtures.good_commit 0x1d00ffff))
      (Fixtures.aux_proof (Fixtures.good_commit 0x1d00ffff))
      ([Byte.x03] ++ pchAuxPowHeader ++ Fixtures.good_commit 0x1d00ffff
       ++ []) ∅.
Proof.
  apply (@check_commitment_ignores_tail Fixtures.sum_hashing).
  vm_compute. reflexivity.
Defined.

Lemma CheckAuxPowProofOfWork_unread_fields_witness :
  let block := Fixtures.aux_block 0x1d00ffff (Fixtures.good_commit 0x1d00ffff) in
  let ap := Fixtures.aux_proof (Fixtures.good_commit 0x1d00ffff) in
  CheckAuxPowProofOfWork (hashing := Fixtures.sum_hashing)
    (CBlock.mk (CBlock.header block) [mkTx [] []]
       (Some (CAuxPow.mk (CAuxPow.coinbaseTx ap) 99 (CAuxPow.vMerkleBranch ap)
                6 [1; 2] 3 (CAuxPow.parentBlock ap))) true)
    Fixtures.auxpow_consensus ∅
  = CheckAuxPowProofOfWork (hashing := Fixtures.sum_hashing) block
      Fixtures.auxpow_consensus ∅.
Proof.
  apply (@CheckAuxPowProofOfWork_unread_fields Fixtures.sum_hashing
           (Fixtures.aux_block 0x1d00ffff (Fixtures.good_commit 0x1d00ffff))
           Fixtures.auxpow_consensus ∅
           (Fixtures.aux_proof (Fixtures.good_commit 0x1d00ffff))
           99 [1; 2] 3 6 [mkTx [] []] true).
  - reflexivity.
  - intros k Hk. cbn in Hk. lia.
Defined.

(** ** The AuxPoW version bit *)

Lemma land_clear_bit8 v k :
  0 <= k ->
  Z.testbit (Z.land v (Z.lnot CBlockHeader.AUXPOW_VERSION_BIT)) k
  = Z.testbit v k && negb (k =? 8).
Proof.
  intros Hk. change CBlockHeader.AUXPOW_VERSION_BIT with (2 ^ 8).
  rewrite Z.land_spec, Z.lnot_spec, Z.pow2_bits_eqb by lia.
  now rewrite (Z.eqb_sym 8 k).
Qed.

Lemma IsAuxpow_testbit h :
  CBlockHeader.IsAuxpow h = Z.testbit (CBlockHeader.nVersion h) 8.
Proof.
  unfold CBlockHeader.IsAuxpow.
  change CBlockHeader.AUXPOW_VERSION_BIT with (2 ^ 8).
  assert (E : Z.land (CBlockHeader.nVersion h) (2 ^ 8)
              = if Z.testbit (CBlockHeader.nVersion h) 8 then 2 ^ 8 else 0).
  { apply Z.bits_inj'. intros i Hi. rewrite Z.land_spec, Z.pow2_bits_eqb by lia.
    destruct (Z.eqb_spec 8 i) as [<-|Hne].
    - rewrite andb_true_r.
      destruct (Z.testbit (CBlockHeader.nVersion h) 8);
        [now rewrite Z.pow2_bits_true by lia|now rewrite Z.bits_0].
    - rewrite andb_false_r.
      destruct (Z.testbit (CBlockHeader.nVersion h) 8);
        [now rewrite Z.pow2_bits_false by lia|now rewrite Z.bits_0]. }
  rewrite E. now destruct (Z.testbit (CBlockHeader.nVersion h) 8).
Qed.

(** X19.  Clearing the AuxPoW bit of a header changes bit 8 of the version
    and nothing else, leaves a header that does not read as AuxPoW, and is
    the identity on a header without the flag: for such a header the hash
    the verifier expects is the header's own hash. *)
Theorem clear_auxpow_bit_spec (h : CBlockHeader.t) :
  let h' := CBlockHeader.clear_auxpow_bit h in
  CBlockHeader.IsAuxpow h' = false /\
  (forall k, 0 <= k -> k <> 8 ->
     Z.testbit (CBlockHeader.nVersion h') k
     = Z.testbit (CBlockHeader.nVersion h) k) /\
  (CBlockHeader.hashPrevBlock h', CBlockHeader.hashMerkleRoot h',
   CBlockHeader.nTime h', CBlockHeader.nBits h', CBlockHeader.nNonce h')
  = (CBlockHeader.hashPrevBlock h, CBlockHeader.hashMerkleRoot h,
     CBlockHeader.nTime h, CBlockHeader.nBits h, CBlockHeader.nNonce h) /\
  (CBlockHeader.IsAuxpow h = false -> h' = h).
Proof.
  intros h'. subst h'. repeat split.
  - rewrite IsAuxpow_testbit. unfold CBlockHeader.clear_auxpow_bit.
    cbn [CBlockHeader.nVersion]. rewrite land_clear_bit8 by lia.
    apply andb_false_r.
  - intros k Hk Hne. unfold CBlockHeader.clear_auxpow_bit.
    cbn [CBlockHeader.nVersion]. rewrite land_clear_bit8 by lia.
    rewrite (proj2 (Z.eqb_neq k 8)) by assumption. apply andb_true_r.
  - rewrite IsAuxpow_testbit. intros Hflag. destruct h as [v a b c d e].
    unfold CBlockHeader.clear_auxpow_bit. cbn [CBlockHeader.nVersion] in *.
    cbn. f_equal. apply Z.bits_inj'. intros k Hk.
    rewrite land_clear_bit8 by lia.
    destruct (Z.eqb_spec k 8) as [->|]; cbn [negb];
      [now rewrite Hflag|apply andb_true_r].
Qed.

(** ** Header serialization *)

Lemma read_bytes_app n b s :
  length b = n -> Wire.read_bytes n (b ++ s) = Some (b, s).
Proof.
  intros <-. unfold Wire.read_bytes.
  destruct (Nat.ltb_spec (length (b ++ s)) (length b)) as [Hlt|_];
    [rewrite length_app in Hlt; lia|].
  rewrite firstn_app, firstn_all, Nat.sub_diag, skipn_app, skipn_all,
    Nat.sub_diag. cbn. now rewrite app_nil_r.
Qed.

Lemma read_bytes_inv n s b s' :
  Wire.read_bytes n s = Some (b, s') ->
  s = b ++ s' /\ length b = n /\ (n <= length s)%nat.
Proof.
  unfold Wire.read_bytes.
  destruct (Nat.ltb_spec (length s) n) as [|Hge]; [discriminate|].
  intros [= <- <-]. rewrite firstn_skipn, length_firstn. repeat split; lia.
Qed.

Lemma read_bytes_none n s :
  Wire.read_bytes n s = None <-> (length s < n)%nat.
Proof.
  unfold Wire.read_bytes. destruct (Nat.ltb_spec (length s) n); split;
    intros; try discriminate; try lia; reflexivity.
Qed.

Lemma read_uint32_app v s :
  0 <= v < 2 ^ 32 -> Wire.read_uint32 (le_split 4 v ++ s) = Some (v, s).
Proof.
  intros Hv. unfold Wire.read_uint32.
  rewrite read_bytes_app by apply length_le_split. cbn [mbind option_bind].
  rewrite le_combine_split. change (Z.of_nat 4 * 8) with 32.
  now rewrite Z.mod_small.
Qed.

Lemma read_int32_app v s :
  - 2 ^ 31 <= v < 2 ^ 31 -> Wire.read_int32 (le_split 4 v ++ s) = Some (v, s).
Proof.
  intros Hv. unfold Wire.read_int32, Wire.read_uint32.
  rewrite read_bytes_app by apply length_le_split. cbn [mbind option_bind].
  rewrite le_combine_split. change (Z.of_nat 4 * 8) with 32.
  do 2 f_equal. destruct (Z.lt_ge_cases v 0) as [Hneg|Hpos].
  - replace (v mod 2 ^ 32) with (v + 2 ^ 32)
      by (apply Z.mod_unique with (q := -1); lia).
    destruct (Z.ltb_spec (v + 2 ^ 32) (2 ^ 31)); lia.
  - rewrite Z.mod_small by lia. destruct (Z.ltb_spec v (2 ^ 31)); lia.
Qed.

Lemma read_uint256_app v s :
  0 <= v < 2 ^ 256 -> Wire.read_uint256 (le_split 32 v ++ s) = Some (v, s).
Proof.
  intros Hv. unfold Wire.read_uint256, Uint256.of_bytes.
  rewrite read_bytes_app by apply length_le_split. cbn [mbind option_bind].
  rewrite le_combine_split. change (Z.of_nat 32 * 8) with 256.
  now rewrite Z.mod_small.
Qed.

(** X20.  Writing a header whose fields are in range and reading the bytes
    back gives the same header and leaves what follows the 80 bytes. *)
Theorem CBlockHeader_Serialize_Unserialize (h : CBlockHeader.t)
    (rest : Wire.stream) :
  header_in_range h ->
  length (Wire.CBlockHeader_Serialize h) = 80%nat /\
  Wire.CBlockHeader_Unserialize (Wire.CBlockHeader_Serialize h ++ rest)
  = Some (h, rest).
Proof.
  intros (Hv & Hp & Hm & Ht & Hb & Hn). split.
  - unfold Wire.CBlockHeader_Serialize. now rewrite !length_app, !length_le_split.
  - unfold Wire.CBlockHeader_Unserialize, Wire.CBlockHeader_Serialize.
    rewrite <- !app_assoc.
    rewrite read_int32_app by assumption. cbn [mbind option_bind].
    rewrite read_uint256_app by assumption. cbn [mbind option_bind].
    rewrite read_uint256_app by assumption. cbn [mbind option_bind].
    rewrite read_uint32_app by assumption. cbn [mbind option_bind].
    rewrite read_uint32_app by assumption. cbn [mbind option_bind].
    rewrite read_uint32_app by assumption. cbn [mbind option_bind].
    now destruct h.
Qed.

Lemma CBlockHeader_Serialize_Unserialize_witness :
  length (Wire.CBlockHeader_Serialize (Fixtures.aux_header 0x1d00ffff))
  = 80%nat /\
  Wire.CBlockHeader_Unserialize
    (Wire.CBlockHeader_Serialize (Fixtures.aux_header 0x1d00ffff)
     ++ [Byte.x00])
  = Some (Fixtures.aux_header 0x1d00ffff, [Byte.x00]).
Proof.
  apply (CBlockHeader_Serialize_Unserialize (Fixtures.aux_header 0x1d00ffff)
           [Byte.x00]).
  unfold header_in_range. vm_compute. repeat split; discriminate.
Defined.

Lemma read_uint32_inv s v s' :
  Wire.read_uint32 s = Some (v, s') ->
  s = le_split 4 v ++ s' /\ 0 <= v < 2 ^ 32.
Proof.
  unfold Wire.read_uint32.
  destruct (Wire.read_bytes 4 s) as [[b s1]|] eqn:E; [|discriminate].
  cbn [mbind option_bind]. intros [= <- <-].
  destruct (read_bytes_inv _ _ _ _ E) as (-> & Hlen & _).
  rewrite <- Hlen at 1. rewrite split_le_combine. split; [reflexivity|].
  pose proof (le_combine_bound b) as Hb. rewrite Hlen in Hb. exact Hb.
Qed.

Lemma le_split_mod n v : le_split n (v mod 2 ^ (Z.of_nat n * 8)) = le_split n v.
Proof.
  apply le_combine_inj; [now rewrite !length_le_split|].
  rewrite !le_combine_split. apply Z.mod_mod. apply Z.pow_nonzero; lia.
Qed.

Lemma read_int32_inv s v s' :
  Wire.read_int32 s = Some (v, s') ->
  s = le_split 4 v ++ s' /\ - 2 ^ 31 <= v < 2 ^ 31.
Proof.
  unfold Wire.read_int32.
  destruct (Wire.read_uint32 s) as [[u s1]|] eqn:E; [|discriminate].
  cbn [mbind option_bind]. intros [= <- <-].
  destruct (read_uint32_inv _ _ _ E) as (-> & Hu).
  destruct (Z.ltb_spec u (2 ^ 31)); [split; [reflexivity|lia]|].
  split; [|lia]. f_equal. rewrite <- (le_split_mod 4 (u - 2 ^ 32)).
  change (Z.of_nat 4 * 8) with 32.
  replace ((u - 2 ^ 32) mod 2 ^ 32) with u; [reflexivity|].
  apply Z.mod_unique with (q := -1); lia.
Qed.

Lemma read_uint256_inv s v s' :
  Wire.read_uint256 s = Some (v, s') ->
  s = le_split 32 v ++ s' /\ 0 <= v < 2 ^ 256.
Proof.
  unfold Wire.read_uint256, Uint256.of_bytes.
  destruct (Wire.read_bytes 32 s) as [[b s1]|] eqn:E; [|discriminate].
  cbn [mbind option_bind]. intros [= <- <-].
  destruct (read_bytes_inv _ _ _ _ E) as (-> & Hlen & _).
  rewrite <- Hlen at 1. rewrite split_le_combine. split; [reflexivity|].
  pose proof (le_combine_bound b) as Hb. rewrite Hlen in Hb. exact Hb.
Qed.

(** X21.  Reading a header consumes exactly the 80 bytes that writing the
    result would produce, and every field read is in its range; the read
    fails exactly on a stream shorter than 80 bytes. *)
Theorem CBlockHeader_Unserialize_spec (s : Wire.stream) :
  match Wire.CBlockHeader_Unserialize s with
  | Some (h, rest) =>
      s = Wire.CBlockHeader_Serialize h ++ rest /\ header_in_range h
  | None => (length s < 80)%nat
  end.
Proof.
  unfold Wire.CBlockHeader_Unserialize.
  destruct (Wire.read_int32 s) as [[v s1]|] eqn:E1; cbn [mbind option_bind].
  2:{ unfold Wire.read_int32, Wire.read_uint32 in E1.
      destruct (Wire.read_bytes 4 s) as [[b s1]|] eqn:E; [discriminate|].
      apply read_bytes_none in E. lia. }
  destruct (read_int32_inv _ _ _ E1) as (-> & Hv).
  rewrite length_app, length_le_split.
  destruct (Wire.read_uint256 s1) as [[p s2]|] eqn:E2; cbn [mbind option_bind].
  2:{ unfold Wire.read_uint256 in E2.
      destruct (Wire.read_bytes 32 s1) as [[b s2]|] eqn:E; [discriminate|].
      apply read_bytes_none in E. lia. }
  destruct (read_uint256_inv _ _ _ E2) as (-> & Hp).
  rewrite length_app, length_le_split.
  destruct (Wire.read_uint256 s2) as [[m s3]|] eqn:E3; cbn [mbind option_bind].
  2:{ unfold Wire.read_uint256 in E3.
      destruct (Wire.read_bytes 32 s2) as [[b s3]|] eqn:E; [discriminate|].
      apply read_bytes_none in E. lia. }
  destruct (read_uint256_inv _ _ _ E3) as (-> & Hm).
  rewrite length_app, length_le_split.
  destruct (Wire.read_uint32 s3) as [[t s4]|] eqn:E4; cbn [mbind option_bind].
  2:{ unfold Wire.read_uint32 in E4.
      destruct (Wire.read_bytes 4 s3) as [[b s4]|] eqn:E; [discriminate|].
      apply read_bytes_none in E. lia. }
  destruct (read_uint32_inv _ _ _ E4) as (-> & Ht).
  rewrite length_app, length_le_split.
  destruct (Wire.read_uint32 s4) as [[b s5]|] eqn:E5; cbn [mbind option_bind].
  2:{ unfold Wire.read_uint32 in E5.
      destruct (Wire.read_bytes 4 s4) as [[b s5]|] eqn:E; [discriminate|].
      apply read_bytes_none in E. lia. }
  destruct (read_uint32_inv _ _ _ E5) as (-> & Hb).
  rewrite length_app, length_le_split.
  destruct (Wire.read_uint32 s5) as [[n s6]|] eqn:E6; cbn [mbind option_bind].
  2:{ unfold Wire.read_uint32 in E6.
      destruct (Wire.read_bytes 4 s5) as [[b' s6]|] eqn:E; [discriminate|].
      apply read_bytes_none in E. lia. }
  destruct (read_uint32_inv _ _ _ E6) as (-> & Hn).
  split.
  - unfold Wire.CBlockHeader_Serialize. cbn [CBlockHeader.nVersion
      CBlockHeader.hashPrevBlock CBlockHeader.hashMerkleRoot
      CBlockHeader.nTime CBlockHeader.nBits CBlockHeader.nNonce].
    now rewrite <- !app_assoc.
  - unfold header_in_range. cbn. tauto.
Qed.

(** ** Block deserialization *)

Section BlockReadFacts.
Context {hashing : Hashing} {readers : Wire.Readers}.

(** X22.  A block that has been read carries a proof only if its header
    has the AuxPoW flag, and then the proof has a coinbase and a parent
    header whose hash is not null; the header is the one on the stream and
    [fChecked] is what the block object had before. *)
Theorem CBlock_Unserialize_invariant (blk b : CBlock.t) (s s' : Wire.stream) :
  Wire.CBlock_Unserialize blk s = Some (b, s') ->
  (exists s1, Wire.CBlockHeader_Unserialize s = Some (CBlock.header b, s1)) /\
  CBlock.fChecked b = CBlock.fChecked blk /\
  forall ap, CBlock.m_auxpow b = Some ap ->
    CBlock.IsAuxpow b = true /\
    Uint256.IsNull (GetParentBlockHash ap) = false /\
    CAuxPow.coinbaseTx ap <> None.
Proof.
  unfold Wire.CBlock_Unserialize.
  destruct (Wire.CBlockHeader_Unserialize s) as [[hdr s1]|]; [|discriminate].
  cbn [mbind option_bind].
  destruct (CBlockHeader.IsAuxpow hdr) eqn:Eflag.
  - destruct (Wire.CAuxPow_Unserialize s1) as [[ap s2]|] eqn:Eap;
      [|discriminate]. cbn [mbind option_bind].
    destruct (Wire.read_vtx s2) as [[vtx s3]|]; [|discriminate].
    cbn [mbind option_bind]. intros [= <- <-].
    cbn [CBlock.header CBlock.fChecked CBlock.m_auxpow].
    split; [eexists; reflexivity|]. split; [reflexivity|].
    intros ap'. destruct (Uint256.IsNull (GetParentBlockHash ap)) eqn:Enull;
      [discriminate|]. intros [= <-].
    repeat split; try assumption.
    unfold Wire.CAuxPow_Unserialize in Eap.
    repeat match type of Eap with
           | context [mbind _ ?o] =>
               destruct o as [[? ?]|]; cbn [mbind option_bind] in Eap;
               [|discriminate]
           end.
    injection Eap as <- _. discriminate.
  - destruct (Wire.read_vtx s1) as [[vtx s2]|]; [|discriminate].
    cbn [mbind option_bind]. intros [= <- <-].
    cbn [CBlock.header CBlock.fChecked CBlock.m_auxpow].
    split; [eexists; reflexivity|]. split; [reflexivity|]. discriminate.
Qed.
End BlockReadFacts.

(** The block read from [aux_stream] keeps its proof. *)
Lemma CBlock_Unserialize_invariant_witness :
  let ap :=
    CAuxPow.mk (Some (mkTx [mkTxIn []] [])) 0 [] 0 [] 0
      Fixtures.parent_header in
  (exists s1, Wire.CBlockHeader_Unserialize Fixtures.aux_stream
              = Some (Fixtures.aux_header 0x1d00ffff, s1)) /\
  false = CBlock.fChecked CBlock.SetNull /\
  CBlockHeader.IsAuxpow (Fixtures.aux_header 0x1d00ffff) = true /\
  Uint256.IsNull (GetParentBlockHash (hashing := Fixtures.sum_hashing) ap)
  = false /\
  CAuxPow.coinbaseTx ap <> None.
Proof.
  intros ap.
  assert (Hread :
    Wire.CBlock_Unserialize (hashing := Fixtures.sum_hashing)
      (readers := Fixtures.short_readers) CBlock.SetNull Fixtures.aux_stream
    = Some (CBlock.mk (Fixtures.aux_header 0x1d00ffff) [] (Some ap) false, []))
    by (vm_compute; reflexivity).
  destruct (@CBlock_Unserialize_invariant Fixtures.sum_hashing
              Fixtures.short_readers _ _ _ _ Hread) as (Hhdr & Hchk & Hap).
  split; [exact Hhdr|]. split; [exact Hchk|]. exact (Hap ap eq_refl).
Defined.

(** ** Replies of the mining handlers *)

Section ReplyFacts.
Context {hashing : Hashing} {node : Mining.Node}
        {validation : MiningRpc.Validation}.

(** The three modes of a validation state and their replies. *)
Lemma BIP22ValidationResult_cases (state : Mining.BlockValidationState) :
  match Mining.m_mode state with
  | Mining.M_VALID =>
      Mining.BIP22ValidationResult state = Mining.Return Mining.NullUniValue
  | Mining.M_ERROR =>
      exists message,
        Mining.BIP22ValidationResult state
        = Mining.Throw Mining.RPC_VERIFY_ERROR message
  | Mining.M_INVALID =>
      exists reply,
        Mining.BIP22ValidationResult state = Mining.Return (Mining.VSTR reply)
        /\ reply <> EmptyString
  end.
Proof.
  unfold Mining.BIP22ValidationResult.
  destruct (Mining.m_mode state); [reflexivity| |eexists; reflexivity].
  destruct (String.eqb_spec (Mining.m_reject_reason state) EmptyString).
  - eexists; split; [reflexivity|discriminate].
  - repeat match goal with
           | |- context [if ?b then _ else _] => destruct b
           end; eexists; (split; [reflexivity|]);
      try discriminate; assumption.
Qed.

(** X24.  [BIP22ValidationResult] returns null exactly for a valid state,
    throws exactly for an error state, and answers an invalid state with a
    string that is not empty. *)
Theorem BIP22ValidationResult_shape (state : Mining.BlockValidationState) :
  match Mining.m_mode state with
  | Mining.M_VALID =>
      Mining.BIP22ValidationResult state = Mining.Return Mining.NullUniValue
  | Mining.M_ERROR =>
      exists message,
        Mining.BIP22ValidationResult state
        = Mining.Throw Mining.RPC_VERIFY_ERROR message
  | Mining.M_INVALID =>
      exists reply,
        Mining.BIP22ValidationResult state = Mining.Return (Mining.VSTR reply)
        /\ reply <> EmptyString
  end.
Proof. exact (BIP22ValidationResult_cases state). Qed.

(** X25.  [submitblock] replies null only for a decoded block whose
    predecessor is in the block index, whose first transaction is a
    coinbase, whose AuxPoW flag is set exactly when its height has reached
    [nAuxpowStartHeight] (and then with a proof), and which the validation
    either checked and found valid or accepted as new. *)
Theorem submitblock_null_reply (decoded : option CBlock.t)
    (mapBlockIndex : gmap uint256 CBlockIndex.t)
    (params : Consensus.Params) :
  Mining.submitblock decoded mapBlockIndex params
  = Mining.Return Mining.NullUniValue ->
  exists block pindexPrev tx0 txs,
    decoded = Some block /\
    mapBlockIndex !! CBlockHeader.hashPrevBlock (CBlock.header block)
    = Some pindexPrev /\
    CBlock.vtx block = tx0 :: txs /\ Mining.IsCoinBase tx0 = true /\
    (CBlock.IsAuxpow block = true <->
     Consensus.nAuxpowStartHeight params <= CBlockIndex.nHeight pindexPrev + 1)
    /\
    (CBlock.IsAuxpow block = true -> CBlock.has_auxpow block = true) /\
    let r := Mining.ProcessNewBlock mapBlockIndex block in
    match Mining.caught r with
    | Some state => Mining.m_mode state = Mining.M_VALID
    | None => Mining.accepted r = true /\ Mining.new_block r = true
    end.
Proof.
  unfold Mining.submitblock.
  destruct decoded as [block|]; [|discriminate].
  unfold Mining.submitblock_height, Mining.LookupBlockIndex.
  destruct (mapBlockIndex !! CBlockHeader.hashPrevBlock (CBlock.header block))
    as [pindexPrev|] eqn:Hprev.
  - set (H := CBlockIndex.nHeight pindexPrev + 1).
    assert (Hgate :
      Mining.submitblock_process block mapBlockIndex
      = Mining.Return Mining.NullUniValue ->
      exists tx0 txs,
        CBlock.vtx block = tx0 :: txs /\ Mining.IsCoinBase tx0 = true /\
        let r := Mining.ProcessNewBlock mapBlockIndex block in
        match Mining.caught r with
        | Some state => Mining.m_mode state = Mining.M_VALID
        | None => Mining.accepted r = true /\ Mining.new_block r = true
        end).
    { unfold Mining.submitblock_process, Mining.LookupBlockIndex.
      destruct (CBlock.vtx block) as [|tx0 txs]; [discriminate|].
      destruct (Mining.IsCoinBase tx0) eqn:Ecb; cbn [negb]; [|discriminate].
      destruct (mapBlockIndex !! GetHash (CBlock.header block)) as [pindex|].
      - destruct (Mining.IsValid_SCRIPTS pindex); [discriminate|].
        destruct (negb _); [discriminate|]. rewrite Hprev.
        intros Hr. exists tx0, txs. repeat split; try assumption. cbn zeta.
        destruct (Mining.caught _) as [state|].
        + pose proof (BIP22ValidationResult_cases state) as Hs.
          destruct (Mining.m_mode state); [reflexivity| |];
            destruct Hs as (x & Hx & ?) || destruct Hs as (x & Hx);
            rewrite Hx in Hr; discriminate.
        + destruct (Mining.accepted _); cbn [negb] in Hr; [|discriminate].
          destruct (Mining.new_block _); cbn [negb] in Hr; [|discriminate].
          split; reflexivity.
      - rewrite Hprev. intros Hr. exists tx0, txs.
        repeat split; try assumption. cbn zeta.
        destruct (Mining.caught _) as [state|].
        + pose proof (BIP22ValidationResult_cases state) as Hs.
          destruct (Mining.m_mode state); [reflexivity| |];
            destruct Hs as (x & Hx & ?) || destruct Hs as (x & Hx);
            rewrite Hx in Hr; discriminate.
        + destruct (Mining.accepted _); cbn [negb] in Hr; [|discriminate].
          destruct (Mining.new_block _); cbn [negb] in Hr; [|discriminate].
          split; reflexivity. }
    destruct (Z.geb_spec H (Consensus.nAuxpowStartHeight params)) as [Hge|Hlt];
      destruct (CBlock.IsAuxpow block) eqn:Eflag; cbn [andb negb];
      try discriminate.
    + destruct (CBlock.has_auxpow block) eqn:Ehas; cbn [negb];
        [|discriminate].
      intros Hr. destruct (Hgate Hr) as (tx0 & txs & Hvtx & Hcb & Hproc).
      exists block, pindexPrev, tx0, txs. rewrite Eflag, Ehas.
      split; [reflexivity|]. split; [assumption|]. split; [assumption|].
      split; [assumption|]. split; [split; intros; [lia|reflexivity]|].
      split; [reflexivity|exact Hproc].
    + intros Hr. destruct (Hgate Hr) as (tx0 & txs & Hvtx & Hcb & Hproc).
      exists block, pindexPrev, tx0, txs. rewrite Eflag.
      split; [reflexivity|]. split; [assumption|]. split; [assumption|].
      split; [assumption|]. split; [split; intros; [discriminate|lia]|].
      split; [discriminate|exact Hproc].
  - assert (Hproc : Mining.submitblock_process block mapBlockIndex
                    <> Mining.Return Mining.NullUniValue).
    { unfold Mining.submitblock_process, Mining.LookupBlockIndex.
      rewrite Hprev.
      destruct (CBlock.vtx block) as [|tx0 txs]; [discriminate|].
      destruct (Mining.IsCoinBase tx0); cbn [negb]; [|discriminate].
      destruct (mapBlockIndex !! GetHash (CBlock.header block)) as [pindex|];
        [|discriminate].
      destruct (Mining.IsValid_SCRIPTS pindex); [discriminate|].
      destruct (negb _); discriminate. }
    destruct (_ =? _); [|discriminate].
    destruct (0 >=? _); destruct (CBlock.IsAuxpow block); cbn [andb negb];
      try discriminate;
      try (destruct (CBlock.has_auxpow block); cbn [negb]; try discriminate);
      intros Hr; contradiction.
Qed.
End ReplyFacts.

Lemma submitblock_null_reply_witness :
  exists block pindexPrev tx0 txs,
    Some plain_block = Some block /\
    Fixtures.small_index !! CBlockHeader.hashPrevBlock (CBlock.header block)
    = Some pindexPrev /\
    CBlock.vtx block = tx0 :: txs /\
    Mining.IsCoinBase (Node := Fixtures.open_node) tx0 = true /\
    (CBlock.IsAuxpow block = true <->
     Consensus.nAuxpowStartHeight Fixtures.auxpow_consensus
     <= CBlockIndex.nHeight pindexPrev + 1) /\
    (CBlock.IsAuxpow block = true -> CBlock.has_auxpow block = true) /\
    let r := Mining.ProcessNewBlock (Node := Fixtures.open_node)
               Fixtures.small_index block in
    match Mining.caught r with
    | Some state => Mining.m_mode state = Mining.M_VALID
    | None => Mining.accepted r = true /\ Mining.new_block r = true
    end.
Proof.
  apply (@submitblock_null_reply Fixtures.sum_hashing Fixtures.open_node
           (Some plain_block) Fixtures.small_index Fixtures.auxpow_consensus).
  vm_compute. reflexivity.
Defined.

Section HandlerFacts.
Context {hashing : Hashing} {node : Mining.Node}
        {validation : MiningRpc.Validation}.

(** X26.  [submitheader] returns null only for a decoded header below
    [nAuxpowStartHeight] (its height taken from the predecessor, or 0 for
    the genesis header) that the header validation accepted or left in a
    state that is not invalid; and at that height [submitblock] lets a
    block with this header and no AuxPoW flag through its gate. *)
Theorem submitheader_null_reply (decoded : option CBlockHeader.t)
    (mapBlockIndex : gmap uint256 CBlockIndex.t)
    (params : Consensus.Params) :
  MiningRpc.submitheader decoded mapBlockIndex params = MiningRpc.HeaderNull ->
  exists h nHeight,
    decoded = Some h /\
    match mapBlockIndex !! CBlockHeader.hashPrevBlock h with
    | Some pindexPrev => nHeight = CBlockIndex.nHeight pindexPrev + 1
    | None => nHeight = 0 /\ GetHash h = Consensus.hashGenesisBlock params
    end /\
    nHeight < Consensus.nAuxpowStartHeight params /\
    (fst (MiningRpc.ProcessNewBlockHeaders mapBlockIndex h) = true \/
     Mining.m_mode (snd (MiningRpc.ProcessNewBlockHeaders mapBlockIndex h))
     <> Mining.M_INVALID) /\
    forall block,
      CBlock.header block = h -> CBlock.IsAuxpow block = false ->
      Mining.submitblock (Some block) mapBlockIndex params
      = Mining.submitblock_process block mapBlockIndex.
Proof.
  unfold MiningRpc.submitheader. destruct decoded as [h|]; [|discriminate].
  unfold Mining.LookupBlockIndex.
  assert (Hval : forall nHeight,
    (if nHeight >=? Consensus.nAuxpowStartHeight params
     then MiningRpc.HeaderThrow MiningRpc.RPC_INVALID_REQUEST
            "Submitheader is incompatible with active AuxPoW"
     else
       let '(ok, state) := MiningRpc.ProcessNewBlockHeaders mapBlockIndex h in
       if negb ok
       then match Mining.m_mode state with
            | Mining.M_INVALID =>
                MiningRpc.HeaderThrow MiningRpc.RPC_VERIFY_ERROR
                  (Mining.StateToString state)
            | _ => MiningRpc.HeaderNull
            end
       else MiningRpc.HeaderNull) = MiningRpc.HeaderNull ->
    nHeight < Consensus.nAuxpowStartHeight params /\
    (fst (MiningRpc.ProcessNewBlockHeaders mapBlockIndex h) = true \/
     Mining.m_mode (snd (MiningRpc.ProcessNewBlockHeaders mapBlockIndex h))
     <> Mining.M_INVALID)).
  { intros nHeight.
    destruct (Z.geb_spec nHeight (Consensus.nAuxpowStartHeight params));
      [discriminate|].
    destruct (MiningRpc.ProcessNewBlockHeaders mapBlockIndex h) as [ok state].
    cbn [fst snd]. destruct ok; cbn [negb]; [auto|].
    destruct (Mining.m_mode state); [|discriminate|]; intros _;
      (split; [assumption|right; discriminate]). }
  destruct (mapBlockIndex !! CBlockHeader.hashPrevBlock h)
    as [pindexPrev|] eqn:Hprev.
  - intros Hr. destruct (Hval _ Hr) as [Hlt Hok].
    exists h, (CBlockIndex.nHeight pindexPrev + 1). rewrite Hprev.
    split; [reflexivity|]. split; [reflexivity|]. split; [assumption|].
    split; [assumption|]. intros block <- Hflag.
    unfold Mining.submitblock, Mining.submitblock_height,
      Mining.LookupBlockIndex. rewrite Hprev, Hflag.
    destruct (Z.geb_spec (CBlockIndex.nHeight pindexPrev + 1)
                (Consensus.nAuxpowStartHeight params)); [lia|reflexivity].
  - destruct (Z.eqb_spec (GetHash h) (Consensus.hashGenesisBlock params))
      as [Hgen|]; [|discriminate].
    intros Hr. destruct (Hval _ Hr) as [Hlt Hok]. exists h, 0. rewrite Hprev.
    split; [reflexivity|]. split; [split; [reflexivity|assumption]|].
    split; [assumption|]. split; [assumption|]. intros block <- Hflag.
    unfold Mining.submitblock, Mining.submitblock_height,
      Mining.LookupBlockIndex. rewrite Hprev, Hflag.
    rewrite (proj2 (Z.eqb_eq _ _) Hgen).
    destruct (Z.geb_spec 0 (Consensus.nAuxpowStartHeight params));
      [lia|reflexivity].
Qed.

(** X27.  A block whose hash is already in the index, fully validated or
    marked failed, gets the same reply from a proposal as from a
    submission that has passed the gate with a coinbase: [duplicate] when
    validated, otherwise [duplicate-invalid]; neither runs the validation
    again. *)
Theorem known_block_replies (block : CBlock.t)
    (mapBlockIndex : gmap uint256 CBlockIndex.t) (pindex : CBlockIndex.t)
    (tx0 : CTransaction) (txs : list CTransaction) :
  mapBlockIndex !! GetHash (CBlock.header block) = Some pindex ->
  Mining.IsValid_SCRIPTS pindex = true \/
  Z.land (CBlockIndex.nStatus pindex) Mining.BLOCK_FAILED_MASK <> 0 ->
  CBlock.vtx block = tx0 :: txs ->
  Mining.IsCoinBase tx0 = true ->
  MiningRpc.getblocktemplate_proposal (Some block) mapBlockIndex
  = Mining.submitblock_process block mapBlockIndex /\
  Mining.submitblock_process block mapBlockIndex
  = Mining.Return
      (Mining.VSTR (if Mining.IsValid_SCRIPTS pindex
                    then "duplicate" else "duplicate-invalid")).
Proof.
  intros Hknown Hstatus Hvtx Hcb.
  unfold MiningRpc.getblocktemplate_proposal,
    MiningRpc.CheckBlockTemplateProposal, Mining.submitblock_process,
    Mining.LookupBlockIndex.
  rewrite Hknown, Hvtx, Hcb. cbn [negb].
  destruct (Mining.IsValid_SCRIPTS pindex); [split; reflexivity|].
  destruct Hstatus as [|Hfailed]; [discriminate|].
  rewrite (proj2 (Z.eqb_neq _ 0) Hfailed). cbn [negb]. split; reflexivity.
Qed.
End HandlerFacts.

Lemma submitheader_null_reply_witness :
  exists h nHeight,
    Some (CBlock.header plain_block) = Some h /\
    match Fixtures.small_index !! CBlockHeader.hashPrevBlock h with
    | Some pindexPrev => nHeight = CBlockIndex.nHeight pindexPrev + 1
    | None =>
        nHeight = 0 /\
        GetHash (hashing := Fixtures.sum_hashing) h
        = Consensus.hashGenesisBlock Fixtures.auxpow_consensus
    end /\
    nHeight < Consensus.nAuxpowStartHeight Fixtures.auxpow_consensus /\
    (fst (MiningRpc.ProcessNewBlockHeaders (Validation := open_validation)
            Fixtures.small_index h) = true \/
     Mining.m_mode
       (snd (MiningRpc.ProcessNewBlockHeaders (Validation := open_validation)
               Fixtures.small_index h))
     <> Mining.M_INVALID) /\
    forall block,
      CBlock.header block = h -> CBlock.IsAuxpow block = false ->
      Mining.submitblock (hashing := Fixtures.sum_hashing)
        (node := Fixtures.open_node) (Some block) Fixtures.small_index
        Fixtures.auxpow_consensus
      = Mining.submitblock_process (hashing := Fixtures.sum_hashing)
          (node := Fixtures.open_node) block Fixtures.small_index.
Proof.
  apply (@submitheader_null_reply Fixtures.sum_hashing Fixtures.open_node
           open_validation (Some (CBlock.header plain_block))
           Fixtures.small_index Fixtures.auxpow_consensus).
  vm_compute. reflexivity.
Defined.

Lemma known_block_replies_witness :
  MiningRpc.getblocktemplate_proposal (hashing := Fixtures.sum_hashing)
    (node := settled_node) (validation := open_validation)
    (Some plain_block) known_index
  = Mining.submitblock_process (hashing := Fixtures.sum_hashing)
      (node := settled_node) plain_block known_index /\
  Mining.submitblock_process (hashing := Fixtures.sum_hashing)
    (node := settled_node) plain_block known_index
  = Mining.Return (Mining.VSTR "duplicate").
Proof.
  apply (@known_block_replies Fixtures.sum_hashing settled_node
           open_validation plain_block known_index
           (Fixtures.chain 0x1d00ffff 120 6) (mkTx [mkTxIn []] []) []).
  - vm_compute. reflexivity.
  - left. reflexivity.
  - reflexivity.
  - reflexivity.
Defined.

(** ** The regtest activation argument *)

(** X28.  [-segwitheight]: unset, the height stays; set to -1 it becomes
    [INT_MAX]; set to a height from 0 to [INT_MAX - 1] it becomes that
    height; anything else is refused.  A height that is accepted is never
    negative. *)
Theorem UpdateSegwitHeight_spec (arg : option Z) (SegwitHeight : Z) :
  match ChainParams.UpdateSegwitHeight arg SegwitHeight with
  | Some height =>
      match arg with
      | None => height = SegwitHeight
      | Some a =>
          -1 <= a < ChainParams.INT_MAX /\
          0 <= height <= ChainParams.INT_MAX /\
          (height = ChainParams.INT_MAX <-> a = -1) /\
          (a <> -1 -> height = a)
      end
  | None => exists a, arg = Some a /\ (a < -1 \/ ChainParams.INT_MAX <= a)
  end.
Proof.
  unfold ChainParams.UpdateSegwitHeight, ChainParams.INT_MAX.
  destruct arg as [a|]; [|reflexivity].
  destruct (Z.ltb_spec a (-1)); cbn [orb]; [exists a; split; [reflexivity|lia]|].
  destruct (Z.geb_spec a 2147483647); [exists a; split; [reflexivity|lia]|].
  destruct (Z.eqb_spec a (-1)); lia.
Qed.
